(** * Deployment orchestration of the DAO contracts (utils/deployment-util.js)

    A shallow embedding of the deployment script: the descriptor table, the
    options bag, the JavaScript objects used as alias-keyed maps, and every
    phase of [deployDao] as a computation in a state-and-error monad whose
    state is the external chain client together with the trace of the calls
    issued to it. *)

From Stdlib Require Import ZArith NArith List String Ascii Bool Lia.
From stdpp Require Import base option gmap strings.
Import ListNotations.

Set Implicit Arguments.
Local Open Scope string_scope.

(** ** JavaScript values held by the options bag *)

(** A contract abstraction (the compiled artifact registered in the options
    bag under the descriptor's name). *)
Record artifact := Artifact { contractName : string }.

Inductive value :=
| VUndefined
| VNull
| VBool (b : bool)
| VNum (n : Z)
| VStr (s : string)
| VArtifact (a : artifact)
| VObject (ref : nat)   (* a function, or an object with none of the members
                           the script reads *)
| VArray (ref : nat).

(** [!v] is [negb (truthy v)]. *)
Definition truthy (v : value) : bool :=
  match v with
  | VUndefined | VNull => false
  | VBool b => b
  | VNum n => negb (n =? 0)%Z
  | VStr s => negb (String.eqb s "")
  | VArtifact _ | VObject _ | VArray _ => true
  end.

(** [v !== null && v !== undefined] is [negb (nullish v)]. *)
Definition nullish (v : value) : bool :=
  match v with
  | VUndefined | VNull => true
  | _ => false
  end.

(** A JavaScript object used as a map: its own properties in enumeration
    order. *)
Definition obj (A : Type) := list (string * A).

(** ** Contract descriptors *)

(** Modelled from the spec: [ContractType] is declared in
    migrations/configs/contracts.config, which is not part of the sources at
    hand.  The five deployable categories are the ones the phases filter on;
    [Core] stands for the category of the descriptors no phase selects. *)
Inductive ContractType := Core | Factory | Extension | Adapter | Util | Test.

Definition ContractType_eqb (a b : ContractType) : bool :=
  match a, b with
  | Core, Core | Factory, Factory | Extension, Extension
  | Adapter, Adapter | Util, Util | Test, Test => true
  | _, _ => false
  end.

(** [acls.dao] and [acls.extensions] of a descriptor (the latter keyed by
    extension id). *)
Record Acls := {
  acl_dao : option (list string);
  acl_extensions : obj (list string)
}.

Record config := {
  id : string;
  name : string;
  alias : string;
  type : ContractType;
  enabled : bool;
  skipAutoDeploy : bool;
  deploymentArgs : option (list string);
  generatesExtensionId : option string;
  acls : Acls;
  daoConfigs : option (list (list string))
}.

(** What a chain call hands back: an instance with its address, and the
    descriptor embedded in it when there is one. *)
Record handle := Handle { address : value; configs : option config }.

(** An instance whose [configs] has been dereferenced: the members of the
    alias-keyed result maps. *)
Record deployed := Deployed { d_address : value; d_configs : config }.

Definition to_handle (d : deployed) : handle :=
  Handle (d_address d) (Some (d_configs d)).

(** ** JavaScript objects used as insertion-ordered maps *)

Definition digit (c : ascii) : option N :=
  let n := N_of_ascii c in
  if ((48 <=? n) && (n <=? 57))%N then Some (n - 48)%N else None.

Fixpoint digits (s : string) (acc : N) : option N :=
  match s with
  | EmptyString => Some acc
  | String c r =>
      match digit c with
      | Some d => digits r (10 * acc + d)%N
      | None => None
      end
  end.

(** The keys that own-property enumeration lists first, in numeric order:
    canonical decimal strings below [2^32 - 1]. *)
Definition array_index (s : string) : option N :=
  match s with
  | EmptyString => None
  | String c r =>
      if (Ascii.eqb c "0" && negb (String.eqb r ""))%bool then None
      else match digits s 0 with
           | Some n => if (n <? 4294967295)%N then Some n else None
           | None => None
           end
  end.

Definition keys {A} (o : obj A) : list string := map fst o.
Definition values {A} (o : obj A) : list A := map snd o.

Definition obj_has {A} (k : string) (o : obj A) : bool :=
  existsb (fun e => String.eqb (fst e) k) o.

Definition obj_get {A} (k : string) (o : obj A) : option A :=
  option_map snd (find (fun e => String.eqb (fst e) k) o).

Fixpoint obj_replace {A} (k : string) (v : A) (o : obj A) : obj A :=
  match o with
  | [] => []
  | (k', v') :: r =>
      if String.eqb k' k then (k, v) :: r else (k', v') :: obj_replace k v r
  end.

Fixpoint obj_insert_index {A} (n : N) (k : string) (v : A) (o : obj A) : obj A :=
  match o with
  | [] => [(k, v)]
  | (k', v') :: r =>
      match array_index k' with
      | Some m => if (m <? n)%N then (k', v') :: obj_insert_index n k v r
                  else (k, v) :: o
      | None => (k, v) :: o
      end
  end.

(** Defining the own property [k]: an existing property keeps its place, a
    new index key goes among the index keys, any other new key goes last. *)
Definition obj_store {A} (k : string) (v : A) (o : obj A) : obj A :=
  if obj_has k o then obj_replace k v o
  else match array_index k with
       | Some n => obj_insert_index n k v o
       | None => (o ++ [(k, v)])%list
       end.

(** [o[k] = v] on an object literal.  The key ["__proto__"] is the accessor
    inherited from [Object.prototype]: assigning an instance to it replaces
    the prototype of [o] and defines no own property, so that enumeration,
    [Object.values] and spreading see [o] as it was.  Every other key is
    defined as an own property.

    The prototype itself is not kept.  The script reads its maps by
    enumeration; its two reads by name, [extensions.bankExt] and the
    [extensions.configs] in the handler of a failing [configureAdapters], are
    taken on the own properties.  This departs from the program only in what
    that handler logs and throws, and only once an extension has been
    assigned under ["__proto__"]. *)
Definition obj_set {A} (k : string) (v : A) (o : obj A) : obj A :=
  if String.eqb k "__proto__" then o else obj_store k v o.

(** The same properties, each value seen through [f]. *)
Definition omap {A B} (f : A -> B) (o : obj A) : obj B :=
  map (fun e => (fst e, f (snd e))) o.

(** ** The options bag *)

(** [contractConfigs], [deployFunction] and [DaoRegistry] are the three
    properties the script uses at a fixed type: the array of descriptors, the
    deployment primitive, and the registry contract whose [at] gives the
    cloned DAO (absent when the bag holds none).  Every other property is
    looked up by name. *)
Record options := {
  contractConfigs : list config;
  DaoRegistry : option artifact;
  props : gmap string value
}.

Definition opt_get (o : options) (k : string) : value :=
  if String.eqb k "contractConfigs" then VArray 0
  else if String.eqb k "deployFunction" then VObject 1
  else if String.eqb k "DaoRegistry" then
    match DaoRegistry o with
    | Some a => VArtifact a
    | None => VUndefined
    end
  else default VUndefined (props o !! k).

(** [{...o, k: v}], for the keys the script adds ([daoAddress],
    [unitTokenToMint], [lootTokenToMint]). *)
Definition opt_set (k : string) (v : value) (o : options) : options :=
  {| contractConfigs := contractConfigs o;
     DaoRegistry := DaoRegistry o;
     props := <[k := v]> (props o) |}.

(** ** Results of the helpers that live outside this module

    [entryDao] and [entryBank] (access-control-util), [sha3] (contract-util)
    and the descriptors' [buildAclFlag] are kept symbolic: an entry records
    the helper and the arguments it was applied to. *)
Inductive entry :=
| entryDao (contractId : string) (contractAddress : value) (a : Acls)
| entryBank (contractAddress : value) (a : Acls)
| buildAclFlag (extension : config) (contractAddress : value) (a : Acls).

Inductive flagsOf := flags (e : entry).

Inductive hash := sha3 (s : string).

(** Modelled from the spec: [embedConfigs] of contract-util.js is not part
    of the sources at hand.  It wraps an instance with its descriptor
    metadata: the descriptor of the table that carries the contract's
    name. *)
Definition embedConfigs (contractInstance : handle) (name' : string)
    (configs' : list config) : handle :=
  Handle (address contractInstance)
         (find (fun c => String.eqb (name c) name') configs').

(** ** Calls to the chain client *)

Inductive chainE : Type -> Type :=
| DeployFunction (contract : value) (args : option (list value)) (from : value)
    : chainE handle
| CreateDao (daoFactory : handle) (daoName creator from : value) : chainE unit
| GetDaoAddress (daoFactory : handle) (daoName : value) : chainE value
| At (contract : artifact) (addr : value) : chainE handle
| Create (factory : handle) (args : list value) : chainE unit
| GetExtensionAddress (factory : handle) (daoAddress : value) : chainE value
| AddExtension (dao : handle) (extensionId : hash)
    (extension creator from : value) : chainE unit
| AddAdapters (daoFactory : handle) (daoAddress : value)
    (entries : list entry) (from : value) : chainE unit
| ConfigureDao (adapter : handle) (args : list value) (from : value)
    : chainE unit
| ConfigureExtension (daoFactory : handle) (daoAddress extension : value)
    (entries : list entry) (from : value) : chainE unit
| FinalizeDao (dao : handle) (from : value) : chainE unit
| GetAdapterAddress (dao : handle) (adapterId : hash) : chainE value
| UpdateAdapter (daoFactory : handle) (daoAddress : value) (e : entry)
    (from : value) : chainE unit
| SetAclToExtensionForAdapter (dao : handle) (extension adapter : value)
    (f : flagsOf) (from : value) : chainE unit.

Definition call := { R : Type & chainE R }.

Definition callOf {R : Type} (c : chainE R) : call := existT R c.

Definition is_deploy (c : call) : bool :=
  match projT2 c with
  | DeployFunction _ _ _ => true
  | _ => false
  end.

(** The calls of the access configurator. *)
Definition is_access (c : call) : bool :=
  match projT2 c with
  | AddAdapters _ _ _ _ | ConfigureDao _ _ _
  | ConfigureExtension _ _ _ _ _ => true
  | _ => false
  end.

(** ** Errors *)

Inductive error :=
| Error (message : string)
| TypeError
| Rejected.

(** What [console.error] was given: a message with or without the error, or
    the error alone. *)
Inductive logline :=
| LogMsg (msg : string) (e : option error)
| LogErr (e : error).

Inductive res (A : Type) :=
| Ok (a : A)
| Err (e : error).
Arguments Ok {A} a.
Arguments Err {A} e.

(** ** The environment of the script

    The chain client ([options.deployFunction] and the methods of the
    instances it returns) and the constants imported from the modules that
    are not at hand: [UNITS] and [LOOT] (contract-util), the values of
    [extensionsIdsMap] and [adaptersIdsMap.VOTING_ADAPTER] (dao-ids-util).
    [perform] answers a call with its result, or with [None] when the
    promise is rejected. *)
Class Env := {
  chain : Type;
  perform : forall R, chainE R -> chain -> option R * chain;
  UNITS : value;
  LOOT : value;
  extensionsIdsMap : list string;
  VOTING_ADAPTER : string
}.

Section Model.
Context {E : Env}.

Record state := State {
  chain_state : chain;
  trace : list call;
  console : list logline
}.

(** ** The monad of the script: chain state, trace, thrown errors *)

Definition M (A : Type) : Type := state -> res A * state.

Definition ret {A} (a : A) : M A := fun s => (Ok a, s).

Definition throw {A} (e : error) : M A := fun s => (Err e, s).

Definition bind {A B} (m : M A) (f : A -> M B) : M B :=
  fun s =>
    match m s with
    | (Ok a, s') => f a s'
    | (Err e, s') => (Err e, s')
    end.

Definition catch {A} (m : M A) (h : error -> M A) : M A :=
  fun s =>
    match m s with
    | (Ok a, s') => (Ok a, s')
    | (Err e, s') => h e s'
    end.

Definition console_error (msg : logline) : M unit :=
  fun s => (Ok tt, State (chain_state s) (trace s) (console s ++ [msg])%list).

Definition invoke {R} (c : chainE R) : M R :=
  fun s =>
    let (r, ch) := perform c (chain_state s) in
    let s' := State ch (trace s ++ [callOf c])%list (console s) in
    match r with
    | Some a => (Ok a, s')
    | None => (Err Rejected, s')
    end.

End Model.

Declare Scope js_scope.
Delimit Scope js_scope with js.
Notation "x <- m ;; k" := (bind m (fun x => k))
  (at level 100, m at next level, right associativity) : js_scope.
Notation "m ;;; k" := (bind m (fun _ => k))
  (at level 100, right associativity) : js_scope.
Local Open Scope js_scope.

Section Script.
Context {E : Env}.

(** [.catch((e) => { console.error(msg, e); throw e; })] *)
Definition logged {A} (msg : string) (m : M A) : M A :=
  catch m (fun e => console_error (LogMsg msg (Some e)) ;;; throw e).

(** [x.configs.<field>] for an instance [x]: a [TypeError] when [x.configs]
    is undefined. *)
Definition embedded (h : handle) : M deployed :=
  match configs h with
  | Some c => ret (Deployed (address h) c)
  | None => throw TypeError
  end.

(** [names.map((argName) => { ...; throw new Error(msg argName) })] *)
Fixpoint resolveArgs (o : options) (msg : string -> string)
    (names : list string) : M (list value) :=
  match names with
  | [] => ret []
  | argName :: rest =>
      let arg := opt_get o argName in
      if negb (nullish arg) then
        args <- resolveArgs o msg rest ;; ret (arg :: args)
      else throw (Error (msg argName))
  end.

(** *** deployContract *)

Definition deployContract (config : config) (o : options) : M handle :=
  let contract := opt_get o (name config) in
  if negb (truthy contract) then
    throw (Error ("Contract " +:+ name config +:+
                  " not found in environment options"))
  else
    match deploymentArgs config with
    | Some ((_ :: _) as names) =>
        args <- resolveArgs o
                  (fun argName => "Missing deployment argument <" +:+ argName
                                  +:+ "> for " +:+ name config) names ;;
        invoke (DeployFunction contract (Some args) VUndefined)
    | _ => invoke (DeployFunction contract None VUndefined)
    end.

(** The three chained [filter]s of every phase. *)
Definition autoDeployed (t : ContractType) (o : options) : list config :=
  List.filter (fun config => negb (skipAutoDeploy config))
    (List.filter (fun config => enabled config)
       (List.filter (fun config => ContractType_eqb (type config) t)
          (contractConfigs o))).

(** [options.contractConfigs.find((c) => c.id === i)] *)
Definition findById (o : options) (i : option string) : option config :=
  match i with
  | Some i => find (fun c => String.eqb (id c) i) (contractConfigs o)
  | None => None
  end.

(** A template literal's rendering of a possibly undefined string. *)
Definition show (s : option string) : string :=
  match s with
  | Some s => s
  | None => "undefined"
  end.

(** *** createFactories *)

Definition deployFactory (o : options) (config : config) : M handle :=
  let factoryContract := opt_get o (name config) in
  if negb (truthy factoryContract) then
    throw (Error ("Missing factory contract " +:+ name config))
  else
    match findById o (generatesExtensionId config) with
    | None =>
        throw (Error ("Missing extension config " +:+
                      show (generatesExtensionId config)))
    | Some extensionConfig =>
        let extensionContract := opt_get o (name extensionConfig) in
        if negb (truthy extensionContract) then
          throw (Error ("Missing extension contract " +:+
                        name extensionConfig))
        else
          logged ("Failed factory deployment [" +:+ name config +:+ "].")
            (invoke (DeployFunction factoryContract
                       (Some [extensionContract]) VUndefined))
    end.

(** The two [then] callbacks of the chain, for one descriptor. *)
Definition factoryBody (o : options) (config : config)
    (factories : obj deployed) : M (obj deployed) :=
  factory <- deployFactory o config ;;
  factory <- embedded factory ;;
  ret (obj_set (alias (d_configs factory)) factory factories).

(** [(p, config) => p.then(...).then(...)] *)
Definition factoryStep (o : options) (p : M (obj deployed)) (config : config)
    : M (obj deployed) :=
  factories <- p ;; factoryBody o config factories.

Definition factoriesChain (o : options) (l : list config)
    (p : M (obj deployed)) : M (obj deployed) :=
  fold_left (factoryStep o) l p.

Definition createFactories (o : options) : M (obj deployed) :=
  factoriesChain o (autoDeployed Factory o) (ret []).

(** *** createExtensions *)

Definition createExtension (dao : handle) (factory : deployed) (o : options)
    : M deployed :=
  let factoryConfigs := d_configs factory in
  match findById o (generatesExtensionId factoryConfigs) with
  | None =>
      throw (Error ("Missing extension configuration <generatesExtensionId> for in "
                    +:+ name factoryConfigs +:+ " configs"))
  | Some extensionConfigs =>
      match deploymentArgs factoryConfigs with
      | Some ((_ :: _) as names) =>
          args <- resolveArgs o
                    (fun argName => "Missing deployment argument <" +:+ argName
                                    +:+ "> in " +:+ name factoryConfigs
                                    +:+ ".create") names ;;
          invoke (Create (to_handle factory) args)
      | _ => invoke (Create (to_handle factory) [])
      end ;;;
      extensionAddress <-
        invoke (GetExtensionAddress (to_handle factory) (opt_get o "daoAddress")) ;;
      let extensionContract := opt_get o (name extensionConfigs) in
      if negb (truthy extensionContract) then
        throw (Error ("Extension contract not found for " +:+
                      name extensionConfigs))
      else
        match extensionContract with
        | VArtifact a =>
            instance <- invoke (At a extensionAddress) ;;
            let newExtension :=
              embedConfigs instance (contractName a) (contractConfigs o) in
            match configs newExtension with
            | None =>
                throw (Error ("Unable to embed extension configs for " +:+
                              name extensionConfigs))
            | Some c =>
                invoke (AddExtension dao (sha3 (id c)) (address newExtension)
                          (opt_get o "owner") (opt_get o "owner")) ;;;
                ret (Deployed (address newExtension) c)
            end
        | VStr _ | VArray _ =>
            (* [at] is the method of [String.prototype] or [Array.prototype]:
               no chain call, and [contractName] is undefined, so that no
               descriptor is embedded *)
            throw (Error ("Unable to embed extension configs for " +:+
                          name extensionConfigs))
        | _ => throw TypeError (* no [at] method *)
        end
  end.

Definition extensionBody (dao : handle) (o : options) (factory : deployed)
    (extensions : obj deployed) : M (obj deployed) :=
  extension <- createExtension dao factory o ;;
  ret (obj_set (alias (d_configs extension)) extension extensions).

(** [(p, factory) => p.then(...).then(...).catch(...)] *)
Definition extensionStep (dao : handle) (o : options) (p : M (obj deployed))
    (factory : deployed) : M (obj deployed) :=
  logged ("Failed extension deployment " +:+ name (d_configs factory))
    (extensions <- p ;; extensionBody dao o factory extensions).

Definition extensionsChain (dao : handle) (o : options) (l : list deployed)
    (p : M (obj deployed)) : M (obj deployed) :=
  fold_left (extensionStep dao o) l p.

Definition createExtensions (dao : handle) (factories : obj deployed)
    (o : options) : M (obj deployed) :=
  extensionsChain dao o (values factories) (ret []).

(** *** createAdapters, createUtilContracts, createTestContracts

    The three phases run the same chain: deploy through [deployContract],
    store under the alias of the instance's descriptor, log and rethrow. *)

Definition deployBody (o : options) (config : config)
    (contracts : obj deployed) : M (obj deployed) :=
  contract <- deployContract config o ;;
  contract <- embedded contract ;;
  ret (obj_set (alias (d_configs contract)) contract contracts).

(** [(p, config) => p.then(...).then(...).catch(...)] *)
Definition deployStep (msg : config -> string) (o : options)
    (p : M (obj deployed)) (config : config) : M (obj deployed) :=
  logged (msg config) (contracts <- p ;; deployBody o config contracts).

Definition deployChain (msg : config -> string) (o : options)
    (l : list config) (p : M (obj deployed)) : M (obj deployed) :=
  fold_left (deployStep msg o) l p.

Definition createAdapters (o : options) : M (obj deployed) :=
  deployChain
    (fun config => "Error while creating adapter " +:+ name config +:+ ".")
    o (autoDeployed Adapter o) (ret []).

Definition createUtilContracts (o : options) : M (obj deployed) :=
  deployChain
    (fun config => "Error while creating util contract " +:+ name config)
    o (autoDeployed Util o) (ret []).

Definition createTestContracts (o : options) : M (obj deployed) :=
  if negb (truthy (opt_get o "deployTestTokens")) then ret []
  else
    deployChain
      (fun config => "Error while creating test contract " +:+ name config)
      o (autoDeployed Test o) (ret []).

(** *** cloneDao *)

Definition cloneDao (o : options) (daoName : value) : M (handle * handle) :=
  let owner := opt_get o "owner" in
  let creator := opt_get o "creator" in
  daoFactory <-
    invoke (DeployFunction (opt_get o "DaoFactory")
              (Some [opt_get o "DaoRegistry"]) owner) ;;
  invoke (CreateDao daoFactory daoName
            (if truthy creator then creator else owner) owner) ;;;
  _address <- invoke (GetDaoAddress daoFactory daoName) ;;
  match DaoRegistry o with
  | Some a => newDao <- invoke (At a _address) ;; ret (newDao, daoFactory)
  | None => throw TypeError (* [at] of undefined *)
  end.

(** *** configureDao *)

Section ConfigureDao.
Variables (owner : value) (dao daoFactory : handle).
Variables (extensions adapters : obj deployed) (o : options).

Definition isEnabled (c : deployed) : bool := enabled (d_configs c).
Definition notSkipped (c : deployed) : bool :=
  negb (skipAutoDeploy (d_configs c)).

Definition entryOf (c : deployed) : entry :=
  entryDao (id (d_configs c)) (d_address c) (acls (d_configs c)).

Definition configureAdaptersWithDAOAccess : M unit :=
  let adaptersWithAccess :=
    map entryOf
      (List.filter (fun a => match acl_dao (acls (d_configs a)) with
                        | Some _ => true
                        | None => false
                        end)
         (List.filter notSkipped (List.filter isEnabled (values adapters)))) in
  let contractsWithAccess :=
    (adaptersWithAccess ++
     map entryOf
       (List.filter (fun e => (0 <? length (keys (acl_extensions (acls (d_configs e)))))%nat)
          (List.filter notSkipped (List.filter isEnabled (values extensions)))))%list in
  invoke (AddAdapters daoFactory (address dao) contractsWithAccess owner).

Definition readConfigValue (configName contractName : string) : M value :=
  let missing :=
    Error ("Error while configuring dao parameter [" +:+ configName +:+
           "] for " +:+ contractName) in
  if existsb (String.eqb configName) extensionsIdsMap then
    match find (fun e => String.eqb (id (d_configs e)) configName)
               (values extensions) with
    | Some extension =>
        if truthy (d_address extension) then ret (d_address extension)
        else throw missing
    | None => throw missing
    end
  else
    let configValue := opt_get o configName in
    if truthy configValue then ret configValue else throw missing.

Fixpoint readConfigValues (configEntry : list string) (contractName : string)
    : M (list value) :=
  match configEntry with
  | [] => ret []
  | configName :: rest =>
      v <- readConfigValue configName contractName ;;
      vs <- readConfigValues rest contractName ;;
      ret (v :: vs)
  end.

Definition hasDaoConfigs (a : deployed) : bool :=
  match daoConfigs (d_configs a) with
  | Some (_ :: _) => true
  | _ => false
  end.

(** One group of parameters: resolve the names, call the adapter. *)
Definition configureGroup (adapter : deployed) (configEntry : list string)
    : M unit :=
  configValues <- readConfigValues configEntry (name (d_configs adapter)) ;;
  catch (invoke (ConfigureDao (to_handle adapter) configValues
                   (opt_get o "owner")))
        (fun e => console_error (LogErr e) ;;; throw e).

Definition configureGroups (adapter : deployed) : M unit :=
  fold_left
    (fun q configEntry => q ;;; configureGroup adapter configEntry)
    (default [] (daoConfigs (d_configs adapter))) (ret tt).

Definition parametersStep (p : M unit) (adapter : deployed) : M unit :=
  logged ("Error while configuring dao with contract " +:+
          name (d_configs adapter))
    (p ;;; configureGroups adapter).

Definition withDaoConfigs : list deployed :=
  List.filter hasDaoConfigs
    (List.filter notSkipped (List.filter isEnabled (values adapters))).

Definition configureAdaptersWithDAOParameters : M unit :=
  fold_left parametersStep withDaoConfigs (ret tt).

Definition configureExtensionAccess (contracts : list deployed)
    (extension : deployed) : M unit :=
  let withAccess :=
    map (fun c => buildAclFlag (d_configs extension) (d_address c)
                    (acls (d_configs c))) contracts in
  if (0 <? length withAccess)%nat then
    invoke (ConfigureExtension daoFactory (address dao) (d_address extension)
              withAccess owner)
  else ret tt.

(** [Object.keys(c.configs.acls.extensions).some((extId) => extId === target.configs.id)] *)
Definition hasAccessTo (target c : deployed) : bool :=
  existsb (fun extId => String.eqb extId (id (d_configs target)))
    (keys (acl_extensions (acls (d_configs c)))).

(** The handler of this chain reads [extensions.configs.name], where
    [extensions] is the alias-keyed map: a [TypeError] replaces the error
    unless an extension is stored under the alias "configs" (an instance has
    no [name] of its own). *)
Definition adaptersAccessStep (p : M unit) (targetExtension : deployed)
    : M unit :=
  let contracts :=
    List.filter (hasAccessTo targetExtension)
      (List.filter notSkipped (List.filter isEnabled (values adapters))) in
  catch (p ;;; configureExtensionAccess contracts targetExtension)
    (fun e =>
       if obj_has "configs" extensions then
         console_error
           (LogMsg ("Error while configuring adapters access to extension "
                    +:+ "undefined") (Some e)) ;;;
         throw e
       else throw TypeError).

Definition configureAdapters : M unit :=
  configureAdaptersWithDAOAccess ;;;
  configureAdaptersWithDAOParameters ;;;
  fold_left adaptersAccessStep
    (List.filter notSkipped (List.filter isEnabled (values extensions)))
    (ret tt).

Definition extensionsAccessStep (p : M unit) (targetExtension : deployed)
    : M unit :=
  let contracts :=
    List.filter (hasAccessTo targetExtension)
      (List.filter (fun e => negb (String.eqb (id (d_configs e))
                                (id (d_configs targetExtension))))
         (List.filter isEnabled (values extensions))) in
  catch (p ;;; configureExtensionAccess contracts targetExtension)
    (fun e =>
       console_error
         (LogMsg ("Error while configuring extensions access to extension "
                  +:+ name (d_configs targetExtension)) None) ;;;
       throw e).

Definition configureExtensions : M unit :=
  fold_left extensionsAccessStep
    (List.filter isEnabled (values extensions)) (ret tt).

Definition configureDao : M unit :=
  configureAdapters ;;; configureExtensions.

End ConfigureDao.

(** *** configureOffchainVoting *)

Record votingHelpers := {
  snapshotProposalContract : option handle;
  handleBadReporterAdapter : option handle;
  offchainVoting : option deployed
}.

Definition configureOffchainVoting (o : options) (dao daoFactory : handle)
    (extensions : obj deployed) : M votingHelpers :=
  let owner := opt_get o "owner" in
  if negb (truthy (opt_get o "offchainVoting")) then
    ret {| snapshotProposalContract := None;
           handleBadReporterAdapter := None;
           offchainVoting := None |}
  else
    currentVotingAdapterAddress <-
      invoke (GetAdapterAddress dao (sha3 VOTING_ADAPTER)) ;;
    snapshotProposal <-
      invoke (DeployFunction (opt_get o "SnapshotProposalContract")
                (Some [opt_get o "chainId"]) VUndefined) ;;
    offchainVotingHashContract <-
      invoke (DeployFunction (opt_get o "OffchainVotingHashContract")
                (Some [address snapshotProposal]) VUndefined) ;;
    handleBadReporter <-
      invoke (DeployFunction (opt_get o "KickBadReporterAdapter") None
                VUndefined) ;;
    offchainVotingContract <-
      invoke (DeployFunction (opt_get o "OffchainVotingContract")
                (Some [currentVotingAdapterAddress;
                       address offchainVotingHashContract;
                       address snapshotProposal;
                       address handleBadReporter;
                       opt_get o "offchainAdmin"]) VUndefined) ;;
    offchainVotingContract <- embedded offchainVotingContract ;;
    invoke (UpdateAdapter daoFactory (address dao)
              (entryOf offchainVotingContract) owner) ;;;
    match obj_get "bankExt" extensions with
    | None => throw TypeError
    | Some bankExt =>
        invoke (SetAclToExtensionForAdapter dao (d_address bankExt)
                  (d_address offchainVotingContract)
                  (flags (entryBank (d_address offchainVotingContract)
                            (acls (d_configs offchainVotingContract))))
                  owner) ;;;
        invoke (ConfigureDao (to_handle offchainVotingContract)
                  [address dao; opt_get o "votingPeriod";
                   opt_get o "gracePeriod"; VNum 10] owner) ;;;
        ret {| snapshotProposalContract := Some snapshotProposal;
               handleBadReporterAdapter := Some handleBadReporter;
               offchainVoting := Some offchainVotingContract |}
    end.

(** *** deployDao *)

Record result := {
  r_dao : handle;
  r_adapters : obj deployed;
  r_extensions : obj deployed;
  r_testContracts : obj deployed;
  r_utilContracts : obj deployed;
  r_votingHelpers : votingHelpers;
  r_factories : obj handle
}.

(** [options.daoName || "test-dao"] *)
Definition daoNameOf (o : options) : value :=
  let daoName := opt_get o "daoName" in
  if truthy daoName then daoName else VStr "test-dao".

(** [{...options, daoAddress: dao.address, unitTokenToMint: UNITS,
    lootTokenToMint: LOOT}] *)
Definition deployOptions (o : options) (daoAddress : value) : options :=
  opt_set "lootTokenToMint" LOOT
    (opt_set "unitTokenToMint" UNITS (opt_set "daoAddress" daoAddress o)).

(** [{ ...factories, daoFactory }] *)
Definition withDaoFactory (factories : obj deployed) (daoFactory : handle)
    : obj handle :=
  obj_set "daoFactory" daoFactory (omap to_handle factories).

(** [adapters[votingHelpers.offchainVoting.configs.alias] = ...] when the
    off-chain voting contract was created. *)
Definition withOffchainVoting (votingHelpers : votingHelpers)
    (adapters : obj deployed) : obj deployed :=
  match offchainVoting votingHelpers with
  | Some v => obj_set (alias (d_configs v)) v adapters
  | None => adapters
  end.

Definition finalizeDao (dao : handle) (o : options) : M unit :=
  if truthy (opt_get o "finalize")
  then invoke (FinalizeDao dao (opt_get o "owner"))
  else ret tt.

Definition deployDao (options0 : options) : M result :=
  daos <- cloneDao options0 (daoNameOf options0) ;;
  let dao := fst daos in
  let daoFactory := snd daos in
  let o := deployOptions options0 (address dao) in
  factories <- createFactories o ;;
  extensions <- createExtensions dao factories o ;;
  adapters <- createAdapters o ;;
  configureDao (opt_get o "owner") dao daoFactory extensions adapters o ;;;
  votingHelpers <- configureOffchainVoting o dao daoFactory extensions ;;
  let adapters := withOffchainVoting votingHelpers adapters in
  utilContracts <- createUtilContracts o ;;
  testContracts <- createTestContracts o ;;
  finalizeDao dao o ;;;
  ret {| r_dao := dao;
         r_adapters := adapters;
         r_extensions := extensions;
         r_testContracts := testContracts;
         r_utilContracts := utilContracts;
         r_votingHelpers := votingHelpers;
         r_factories := withDaoFactory factories daoFactory |}.

End Script.

(** ** The network table *)

Record network := { net_name : string; chainId : Z }.

Definition networks : list network :=
  [ {| net_name := "ganache"; chainId := 1337 |};
    {| net_name := "rinkeby"; chainId := 4 |};
    {| net_name := "rinkeby-fork"; chainId := 4 |};
    {| net_name := "goerli"; chainId := 5 |};
    {| net_name := "test"; chainId := 1 |};
    {| net_name := "coverage"; chainId := 1 |};
    {| net_name := "mainnet"; chainId := 1 |};
    {| net_name := "harmony"; chainId := 1666600000 |};
    {| net_name := "harmonytest"; chainId := 1666700000 |} ].

Definition getNetworkDetails (name' : string) : option network :=
  find (fun n => String.eqb (net_name n) name') networks.

(** ** A chain client to run the script on

    Every call succeeds; the state counts the calls and serves as the source
    of fresh addresses; [deployFunction] embeds the descriptor that the table
    lists under the name of the deployed contract. *)

Definition tableDeploy (table : list config) (contract : value) (n : nat)
    : handle :=
  match contract with
  | VArtifact a =>
      embedConfigs (Handle (VNum (Z.of_nat (S n))) None) (contractName a) table
  | _ => Handle (VNum (Z.of_nat (S n))) None
  end.

Definition tablePerform (table : list config) (R : Type) (c : chainE R)
    (n : nat) : option R * nat :=
  match c in chainE R return option R * nat with
  | DeployFunction contract _ _ => (Some (tableDeploy table contract n), S n)
  | CreateDao _ _ _ _ => (Some tt, S n)
  | GetDaoAddress _ _ => (Some (VNum (Z.of_nat (S n))), S n)
  | At _ addr => (Some (Handle addr None), S n)
  | Create _ _ => (Some tt, S n)
  | GetExtensionAddress _ _ => (Some (VNum (Z.of_nat (S n))), S n)
  | AddExtension _ _ _ _ _ => (Some tt, S n)
  | AddAdapters _ _ _ _ => (Some tt, S n)
  | ConfigureDao _ _ _ => (Some tt, S n)
  | ConfigureExtension _ _ _ _ _ => (Some tt, S n)
  | FinalizeDao _ _ => (Some tt, S n)
  | GetAdapterAddress _ _ => (Some (VNum 0), S n)
  | UpdateAdapter _ _ _ _ => (Some tt, S n)
  | SetAclToExtensionForAdapter _ _ _ _ _ => (Some tt, S n)
  end.

Definition tableEnv (table : list config) : Env :=
  {| chain := nat;
     perform := tablePerform table;
     UNITS := VStr "UNITS";
     LOOT := VStr "LOOT";
     extensionsIdsMap := ["bank"];
     VOTING_ADAPTER := "voting" |}.

Definition fresh (table : list config) : @state (tableEnv table) :=
  @State (tableEnv table) 0%nat [] [].

Definition noAcls : Acls := {| acl_dao := None; acl_extensions := [] |}.

Definition descriptor (id' name' alias' : string) (t : ContractType)
    (enabled' skip : bool) (args : option (list string))
    (generates : option string) : config :=
  {| id := id'; name := name'; alias := alias'; type := t;
     enabled := enabled'; skipAutoDeploy := skip; deploymentArgs := args;
     generatesExtensionId := generates; acls := noAcls; daoConfigs := None |}.

Definition bag (table : list config) (registry : option artifact)
    (l : list (string * value)) : options :=
  {| contractConfigs := table; DaoRegistry := registry;
     props := list_to_map l |}.

Definition registryContract : option artifact := Some (Artifact "DaoRegistry").

Definition art (n : string) : value := VArtifact (Artifact n).

(** A small table: a factory and the extension it generates, an adapter, a
    utility contract and a test token, all enabled and auto-deployed. *)
Definition smallTable : list config :=
  [ descriptor "bank-factory" "BankFactory" "bankExtFactory" Factory
      true false None (Some "bank");
    descriptor "bank" "BankExtension" "bankExt" Extension
      true false None None;
    descriptor "voting" "VotingContract" "voting" Adapter
      true false None None;
    descriptor "multicall" "Multicall" "multicall" Util
      true false None None;
    descriptor "test-token" "TestToken1" "testToken1" Test
      true false None None ].

Definition smallProps : list (string * value) :=
  [ ("BankFactory", art "BankFactory");
    ("BankExtension", art "BankExtension");
    ("VotingContract", art "VotingContract");
    ("Multicall", art "Multicall");
    ("TestToken1", art "TestToken1");
    ("DaoFactory", art "DaoFactory");
    ("owner", VStr "0xowner") ].

(** The options of a run that leaves [deployTestTokens] and
    [offchainVoting] unset. *)
Definition smallOptions : options := bag smallTable registryContract smallProps.

(** The small table with the off-chain voting contract, which is not
    auto-deployed, under the alias [alias']. *)
Definition votingTable (alias' : string) : list config :=
  (smallTable ++
   [ descriptor "voting" "OffchainVotingContract" alias' Adapter
       true true None None ])%list.

Definition votingProps : list (string * value) :=
  (smallProps ++
   [ ("offchainVoting", VBool true);
     ("OffchainVotingContract", art "OffchainVotingContract");
     ("SnapshotProposalContract", art "SnapshotProposalContract");
     ("KickBadReporterAdapter", art "KickBadReporterAdapter");
     ("OffchainVotingHashContract", art "OffchainVotingHashContract");
     ("chainId", VNum 1) ])%list.

Definition votingOptions (alias' : string) : options :=
  bag (votingTable alias') registryContract votingProps.

(** The same run with the off-chain voting contract described under the
    category [t]. *)
Definition typedVotingTable (t : ContractType) : list config :=
  (smallTable ++
   [ descriptor "offchain-voting" "OffchainVotingContract" "offchainVoting" t
       true true None None ])%list.

Definition typedVotingOptions (t : ContractType) : options :=
  bag (typedVotingTable t) registryContract votingProps.

(** A table whose one factory names an extension that no descriptor has. *)
Definition orphanFactory : config :=
  descriptor "erc20-factory" "ERC20TokenExtensionFactory" "erc20ExtFactory"
    Factory true false None (Some "erc20-ext").

Definition orphanOptions : options :=
  bag [orphanFactory] None
    [ ("ERC20TokenExtensionFactory", art "ERC20TokenExtensionFactory") ].

(** A descriptor whose contract the options bag does not hold, and one whose
    arguments are there but falsy. *)
Definition unregistered : config :=
  descriptor "onboarding" "OnboardingContract" "onboarding" Adapter
    true false (Some ["chunkSize"]) None.

Definition falsyArguments : config :=
  descriptor "multicall" "Multicall" "multicall" Util
    true false (Some ["zero"; "no"; "empty"]) None.

Definition falsyOptions : options :=
  bag [falsyArguments] None
    [ ("Multicall", art "Multicall"); ("zero", VNum 0);
      ("no", VBool false); ("empty", VStr "") ].

(** ** Vocabulary of the statements *)

(** The argument is neither null nor undefined in the options bag. *)
Definition present (o : options) (argName : string) : bool :=
  negb (nullish (opt_get o argName)).

(** The two errors of [deployContract]. *)
Definition notFound (config : config) : error :=
  Error ("Contract " +:+ name config +:+ " not found in environment options").

Definition missingArgument (config : config) (argName : string) : error :=
  Error ("Missing deployment argument <" +:+ argName +:+ "> for " +:+
         name config).

(** The result of [configureOffchainVoting] when the feature is off. *)
Definition noVotingHelpers : votingHelpers :=
  {| snapshotProposalContract := None;
     handleBadReporterAdapter := None;
     offchainVoting := None |}.

(** A deployment call is issued after an access-configuration call. *)
Fixpoint deployAfterAccess (t : list call) : bool :=
  match t with
  | [] => false
  | c :: r => (is_access c && existsb is_deploy r) || deployAfterAccess r
  end.

Section Vocabulary.
Context {E : Env}.

(** Every outcome of [m], failure included, appends to the trace only calls
    that satisfy [P]. *)
Definition emits {A} (P : call -> Prop) (m : M A) : Prop :=
  forall s r s', m s = (r, s') ->
    exists t, trace s' = (trace s ++ t)%list /\ Forall P t.


(** The sequential loop a promise chain amounts to when it succeeds. *)
Fixpoint loop {X A} (body : X -> A -> M A) (l : list X) (a : A) : M A :=
  match l with
  | [] => ret a
  | x :: r => a' <- body x a ;; loop body r a'
  end.

(** The two configuration errors of a factory's step. *)
Definition missingFactory (config : config) : error :=
  Error ("Missing factory contract " +:+ name config).

Definition missingExtensionConfig (config : config) : error :=
  Error ("Missing extension config " +:+ show (generatesExtensionId config)).

(** The deployment of an auto-deployed factory whose link resolves: the
    factory contract with the extension contract as its one argument. *)
Definition factoryDeployment (o : options) (c : call) : Prop :=
  exists config extensionConfig,
    In config (autoDeployed Factory o) /\
    findById o (generatesExtensionId config) = Some extensionConfig /\
    c = callOf
          (DeployFunction (opt_get o (name config))
             (Some [opt_get o (name extensionConfig)]) VUndefined).

(** The error of a DAO parameter that does not resolve. *)
Definition parameterError (configName contractName : string) : error :=
  Error ("Error while configuring dao parameter [" +:+ configName +:+
         "] for " +:+ contractName).

(** The resolution of a DAO parameter in the words of the specification: the
    address of the deployed extension when the name is a known extension
    identifier, the entry of the options bag otherwise. *)
Definition resolveParameter (extensions : obj deployed) (o : options)
    (configName : string) : option value :=
  if in_dec String.string_dec configName extensionsIdsMap then
    match find (fun e => String.eqb (id (d_configs e)) configName)
               (values extensions) with
    | Some extension =>
        if truthy (d_address extension) then Some (d_address extension)
        else None
    | None => None
    end
  else if truthy (opt_get o configName) then Some (opt_get o configName)
       else None.

Definition resolved (extensions : obj deployed) (o : options)
    (configName : string) : value :=
  default VUndefined (resolveParameter extensions o configName).



(** The error [e] is that of a parameter of [adapter] that does not
    resolve. *)
Definition unresolved (extensions : obj deployed) (o : options)
    (adapter : deployed) (e : error) : Prop :=
  exists configEntry configName,
    In configEntry (default [] (daoConfigs (d_configs adapter))) /\
    In configName configEntry /\
    resolveParameter extensions o configName = None /\
    e = parameterError configName (name (d_configs adapter)).

End Vocabulary.

(** ** Vocabulary of the result aggregate *)

(** A call other than those of the access configurator. *)
Definition quiet (c : call) : Prop := is_access c = false.

(** A call other than a deployment. *)
Definition settled (c : call) : Prop := is_deploy c = false.

(** The aliases of a map with the descriptor stored under each. *)
Definition shape (m : obj deployed) : obj config := omap d_configs m.

(** The descriptor that the table lists under the name of a contract. *)
Definition tagOf (table : list config) (contract : value) : option config :=
  match contract with
  | VArtifact a => find (fun c => String.eqb (name c) (contractName a)) table
  | _ => None
  end.

(** The deploy primitive embeds in the instance it returns a descriptor that
    depends on the deployed contract alone. *)
Definition tagging {E : Env} (tag : value -> option config) : Prop :=
  forall contract args from ch h ch',
    perform (DeployFunction contract args from) ch = (Some h, ch') ->
    configs h = tag contract.

(** The map a deployment chain builds over the descriptors [l], when each
    registered contract has a tag. *)
Fixpoint storeAll (tag : value -> option config) (o : options)
    (l : list config) (acc : obj config) : option (obj config) :=
  match l with
  | [] => Some acc
  | config :: r =>
      match tag (opt_get o (name config)) with
      | Some c => storeAll tag o r (obj_set (alias c) c acc)
      | None => None
      end
  end.

(** The descriptor of the extension that a factory generates. *)
Definition generated (o : options) (factoryConfigs : config) : option config :=
  match findById o (generatesExtensionId factoryConfigs) with
  | Some extensionConfigs =>
      tagOf (contractConfigs o) (opt_get o (name extensionConfigs))
  | None => None
  end.

Fixpoint generateAll (o : options) (factories : list config)
    (acc : obj config) : option (obj config) :=
  match factories with
  | [] => Some acc
  | factoryConfigs :: r =>
      match generated o factoryConfigs with
      | Some c => generateAll o r (obj_set (alias c) c acc)
      | None => None
      end
  end.

(** The fold behind [storeAll] and [generateAll]. *)
Fixpoint collect {X : Type} (g : X -> option config) (l : list X)
    (acc : obj config) : option (obj config) :=
  match l with
  | [] => Some acc
  | x :: r =>
      match g x with
      | Some c => collect g r (obj_set (alias c) c acc)
      | None => None
      end
  end.

(** The keys that [deployDao] adds to the options bag. *)
Definition reserved : list string :=
  ["daoAddress"; "unitTokenToMint"; "lootTokenToMint"].

(** No descriptor is named after a key that [deployDao] adds to the bag. *)
Definition unreserved (o : options) : Prop :=
  forall c, In c (contractConfigs o) -> ~ In (name c) reserved.

(** The contract registered under the name of a descriptor is tagged, if at
    all, with this very descriptor. *)
Definition wired (o : options) : Prop :=
  forall c t, In c (contractConfigs o) ->
    tagOf (contractConfigs o) (opt_get o (name c)) = Some t -> t = c.

(** The descriptors that a phase deploys. *)
Definition deployable (t : ContractType) (o : options) (c : config) : Prop :=
  In c (contractConfigs o) /\ type c = t /\
  enabled c = true /\ skipAutoDeploy c = false.

Definition isSet {A} (x : option A) : bool :=
  match x with Some _ => true | None => false end.

(** The structure of a result aggregate: the keys of each map, and which of
    the voting helpers are there. *)
Definition structure (r : result)
    : list (list string) * (bool * bool * bool) :=
  ([ keys (r_adapters r); keys (r_extensions r); keys (r_utilContracts r);
     keys (r_testContracts r); keys (r_factories r) ],
   (isSet (snapshotProposalContract (r_votingHelpers r)),
    isSet (handleBadReporterAdapter (r_votingHelpers r)),
    isSet (offchainVoting (r_votingHelpers r)))).

(** ** Vocabulary of the call sequences *)

Definition is_finalize (c : call) : bool :=
  match projT2 c with
  | FinalizeDao _ _ => true
  | _ => false
  end.

Definition is_addAdapters (c : call) : bool :=
  match projT2 c with
  | AddAdapters _ _ _ _ => true
  | _ => false
  end.

(** The argument names a descriptor declares, none when the property is
    missing. *)
Definition declaredArgs (config : config) : list string :=
  match deploymentArgs config with
  | Some names => names
  | None => []
  end.

(** The argument list [deployContract] hands to the deploy primitive:
    undefined unless the descriptor declares at least one argument. *)
Definition deployArgs (o : options) (config : config) : option (list value) :=
  match declaredArgs config with
  | [] => None
  | names => Some (map (opt_get o) names)
  end.

Definition deployCall (o : options) (config : config) : call :=
  callOf (DeployFunction (opt_get o (name config)) (deployArgs o config)
            VUndefined).

(** The deployment of a factory, when its link resolves. *)
Definition factoryCalls (o : options) (l : list config) : list call :=
  flat_map
    (fun config =>
       match findById o (generatesExtensionId config) with
       | Some extensionConfig =>
           [callOf (DeployFunction (opt_get o (name config))
                      (Some [opt_get o (name extensionConfig)]) VUndefined)]
       | None => []
       end) l.

(** The arguments of [factory.create]. *)
Definition createArgs (o : options) (factoryConfigs : config) : list value :=
  map (opt_get o) (declaredArgs factoryConfigs).

Definition missingCreateArgument (factoryConfigs : config) (argName : string)
    : error :=
  Error ("Missing deployment argument <" +:+ argName +:+ "> in " +:+
         name factoryConfigs +:+ ".create").

Definition missingLink (factoryConfigs : config) : error :=
  Error ("Missing extension configuration <generatesExtensionId> for in "
         +:+ name factoryConfigs +:+ " configs").

Definition extensionNotFound (extensionConfigs : config) : error :=
  Error ("Extension contract not found for " +:+ name extensionConfigs).

(** [creator ? creator : owner] *)
Definition creatorOf (o : options) : value :=
  if truthy (opt_get o "creator") then opt_get o "creator"
  else opt_get o "owner".

(** The four calls of [cloneDao]. *)
Definition cloneCalls (o : options) (daoName : value) (registry : artifact)
    (daoFactory : handle) (daoAddress : value) : list call :=
  [ callOf (DeployFunction (opt_get o "DaoFactory")
              (Some [VArtifact registry]) (opt_get o "owner"));
    callOf (CreateDao daoFactory daoName (creatorOf o) (opt_get o "owner"));
    callOf (GetDaoAddress daoFactory daoName);
    callOf (At registry daoAddress) ].

(** The line that the [catch] of a deployment chain logs. *)
Definition logOf (msg : config -> string) (e : error) (config : config)
    : logline :=
  LogMsg (msg config) (Some e).

Definition adapterMessage (config : config) : string :=
  "Error while creating adapter " +:+ name config +:+ ".".

(** The batched entries of the DAO-level access grant: the adapters that
    declare DAO flags, then the extensions that declare access to other
    extensions. *)
Definition daoAccessEntries (extensions adapters : obj deployed)
    : list entry :=
  (map entryOf
     (List.filter (fun a => isSet (acl_dao (acls (d_configs a))))
        (List.filter notSkipped (List.filter isEnabled (values adapters)))) ++
   map entryOf
     (List.filter
        (fun e => negb (Nat.eqb (length (acl_extensions (acls (d_configs e)))) 0))
        (List.filter notSkipped (List.filter isEnabled (values extensions)))))%list.


(** The calls of a run address the DAO [dao]: its instance for the calls on
    the registry, its address for the calls on the factories. *)
Definition onDao (dao : handle) (c : call) : Prop :=
  match projT2 c with
  | GetExtensionAddress _ daoAddress => daoAddress = address dao
  | AddExtension dao' _ _ _ _ => dao' = dao
  | AddAdapters _ daoAddress _ _ => daoAddress = address dao
  | ConfigureExtension _ daoAddress _ _ _ => daoAddress = address dao
  | FinalizeDao dao' _ => dao' = dao
  | GetAdapterAddress dao' _ => dao' = dao
  | UpdateAdapter _ daoAddress _ _ => daoAddress = address dao
  | SetAclToExtensionForAdapter dao' _ _ _ _ => dao' = dao
  | _ => True
  end.

(** The eight calls of the off-chain voting installer. *)
Definition votingCalls {E : Env} (o : options) (dao daoFactory : handle)
    (bankExt : deployed) (current : value) (snapshot hashContract reporter
    : handle) (voting : deployed) : list call :=
  [ callOf (GetAdapterAddress dao (sha3 VOTING_ADAPTER));
    callOf (DeployFunction (opt_get o "SnapshotProposalContract")
              (Some [opt_get o "chainId"]) VUndefined);
    callOf (DeployFunction (opt_get o "OffchainVotingHashContract")
              (Some [address snapshot]) VUndefined);
    callOf (DeployFunction (opt_get o "KickBadReporterAdapter") None
              VUndefined);
    callOf (DeployFunction (opt_get o "OffchainVotingContract")
              (Some [current; address hashContract; address snapshot;
                     address reporter; opt_get o "offchainAdmin"])
              VUndefined);
    callOf (UpdateAdapter daoFactory (address dao) (entryOf voting)
              (opt_get o "owner"));
    callOf (SetAclToExtensionForAdapter dao (d_address bankExt)
              (d_address voting)
              (flags (entryBank (d_address voting) (acls (d_configs voting))))
              (opt_get o "owner"));
    callOf (ConfigureDao (to_handle voting)
              [address dao; opt_get o "votingPeriod"; opt_get o "gracePeriod";
               VNum 10]
              (opt_get o "owner")) ].

(** The first two calls of [createExtension]: the creation and the query
    for the address of what was created. *)
Definition createCall (o : options) (factory : deployed) : call :=
  callOf (Create (to_handle factory) (createArgs o (d_configs factory))).

Definition queryCall (o : options) (factory : deployed) : call :=
  callOf (GetExtensionAddress (to_handle factory) (opt_get o "daoAddress")).

(** A grant of access to an extension, as [configureAdapters] issues it: to
    an enabled, non-skipped target, for a non-empty list of enabled,
    non-skipped adapters that declare access to it.  Calls other than
    [configureExtension] are left aside. *)
Definition adapterGrant (owner : value) (dao daoFactory : handle)
    (extensions adapters : obj deployed) (c : call) : Prop :=
  match projT2 c with
  | ConfigureExtension _ _ _ _ _ =>
      exists target contracts,
        In target (values extensions) /\ isEnabled target = true /\
        notSkipped target = true /\ contracts <> [] /\
        (forall x, In x contracts ->
           In x (values adapters) /\ isEnabled x = true /\
           notSkipped x = true /\ hasAccessTo target x = true) /\
        c = callOf (ConfigureExtension daoFactory (address dao)
                      (d_address target)
                      (map (fun x => buildAclFlag (d_configs target)
                                       (d_address x) (acls (d_configs x)))
                           contracts)
                      owner)
  | _ => True
  end.

(** ** Further runs

    A chain client that refuses every [configureExtension] call, and the
    maps of a DAO whose voting adapter declares access to the bank. *)



Definition bankExtension : deployed :=
  Deployed (VNum 7)
    (descriptor "bank" "BankExtension" "bankExt" Extension true false None None).

Definition votingAdapter : deployed :=
  Deployed (VNum 9)
    {| id := "voting"; name := "VotingContract"; alias := "voting";
       type := Adapter; enabled := true; skipAutoDeploy := false;
       deploymentArgs := None; generatesExtensionId := None;
       acls := {| acl_dao := None;
                  acl_extensions := [("bank", ["INTERNAL_TRANSFER"])] |};
       daoConfigs := None |}.


(** The adapters of a table whose second adapter has no contract in the
    options bag. *)
Definition brokenTable : list config :=
  [ descriptor "voting" "VotingContract" "voting" Adapter true false None None;
    unregistered;
    descriptor "financing" "FinancingContract" "financing" Adapter
      true false None None ].

Definition brokenOptions : options := bag brokenTable registryContract smallProps.

(** Instances to run single phases on: a DAO and its factory, the deployed
    bank factory, a deployed factory whose link does not resolve. *)
Definition theDao : handle := Handle (VNum 3) None.
Definition theDaoFactory : handle := Handle (VNum 1) None.

Definition bankFactory : deployed :=
  Deployed (VNum 5)
    (descriptor "bank-factory" "BankFactory" "bankExtFactory" Factory
       true false None (Some "bank")).

Definition orphan : deployed := Deployed (VNum 5) orphanFactory.

(** The small options with [finalize] set. *)
Definition finalOptions : options :=
  bag smallTable registryContract (("finalize", VBool true) :: smallProps).

(** * Properties *)

Unset Implicit Arguments.

(** ** Values *)

Lemma nullish_not_truthy (v : value) : nullish v = true -> truthy v = false.
Proof. destruct v; simpl; congruence. Qed.

Lemma nullish_iff (v : value) :
  nullish v = true <-> v = VUndefined \/ v = VNull.
Proof.
  destruct v; simpl; split; intros H; try discriminate; auto;
    destruct H as [H | H]; discriminate.
Qed.

(** ** Objects *)

Section Objects.
Context {A : Type}.
Implicit Types (o : obj A) (k : string) (v : A).

Lemma obj_has_In k o : obj_has k o = true <-> In k (keys o).
Proof.
  unfold obj_has, keys. rewrite existsb_exists, in_map_iff.
  split; intros [e [H1 H2]]; exists e.
  - split; [now apply String.eqb_eq | assumption].
  - split; [assumption | now apply String.eqb_eq].
Qed.

Lemma keys_replace k v o : keys (obj_replace k v o) = keys o.
Proof.
  induction o as [| [k' v'] r IH]; simpl; [reflexivity |].
  destruct (String.eqb k' k) eqn:Hk; simpl.
  - apply String.eqb_eq in Hk. now subst.
  - now rewrite IH.
Qed.

Lemma keys_insert_index n k v o k' :
  In k' (keys (obj_insert_index n k v o)) <-> k' = k \/ In k' (keys o).
Proof.
  induction o as [| [k0 v0] r IH]; simpl.
  - intuition.
  - destruct (array_index k0) as [m |]; [destruct (m <? n)%N |]; simpl;
      rewrite ?IH; intuition.
Qed.

Lemma keys_store k v o k' :
  In k' (keys (obj_store k v o)) <-> k' = k \/ In k' (keys o).
Proof.
  unfold obj_store. destruct (obj_has k o) eqn:Hh.
  - rewrite keys_replace. apply obj_has_In in Hh.
    split; [auto | intros [-> | H]; auto].
  - destruct (array_index k).
    + apply keys_insert_index.
    + unfold keys. rewrite map_app, in_app_iff. simpl. intuition.
Qed.

Lemma get_replace k v o : obj_has k o = true -> obj_get k (obj_replace k v o) = Some v.
Proof.
  unfold obj_get. induction o as [| [k' v'] r IH]; simpl; [discriminate |].
  destruct (String.eqb k' k) eqn:Hk; simpl.
  - now rewrite String.eqb_refl.
  - rewrite Hk. auto.
Qed.

Lemma get_insert_index n k v o :
  obj_has k o = false -> obj_get k (obj_insert_index n k v o) = Some v.
Proof.
  unfold obj_get. induction o as [| [k' v'] r IH]; simpl.
  - now rewrite String.eqb_refl.
  - destruct (String.eqb k' k) eqn:Hk; simpl; [discriminate |]. intros Hr.
    destruct (array_index k') as [m |]; [destruct (m <? n)%N |]; simpl;
      rewrite ?Hk, ?String.eqb_refl; auto.
Qed.

Lemma get_append k v o :
  obj_has k o = false -> obj_get k (o ++ [(k, v)])%list = Some v.
Proof.
  unfold obj_get. induction o as [| [k' v'] r IH]; simpl.
  - now rewrite String.eqb_refl.
  - destruct (String.eqb k' k) eqn:Hk; simpl; [discriminate | auto].
Qed.

Lemma get_store k v o : obj_get k (obj_store k v o) = Some v.
Proof.
  unfold obj_store. destruct (obj_has k o) eqn:Hh.
  - now apply get_replace.
  - destruct (array_index k); [now apply get_insert_index | now apply get_append].
Qed.

Lemma length_replace k v o : length (obj_replace k v o) = length o.
Proof.
  induction o as [| [k' v'] r IH]; simpl; [reflexivity |].
  destruct (String.eqb k' k); simpl; congruence.
Qed.

Lemma length_insert_index n k v o :
  length (obj_insert_index n k v o) = S (length o).
Proof.
  induction o as [| [k' v'] r IH]; simpl; [reflexivity |].
  destruct (array_index k') as [m |]; [destruct (m <? n)%N |]; simpl; congruence.
Qed.

Lemma length_store k v o :
  length (obj_store k v o) = if obj_has k o then length o else S (length o).
Proof.
  unfold obj_store. destruct (obj_has k o).
  - apply length_replace.
  - destruct (array_index k); [apply length_insert_index |].
    rewrite length_app. simpl. lia.
Qed.

Lemma NoDup_insert_index n k v o :
  ~ In k (keys o) -> List.NoDup (keys o) -> List.NoDup (keys (obj_insert_index n k v o)).
Proof.
  induction o as [| [k' v'] r IH]; simpl; intros Hn Hd.
  - constructor; [intros [] | constructor].
  - inversion Hd as [| ? ? Hk' Hr]; subst.
    assert (Hall : List.NoDup (k :: k' :: keys r)).
    { constructor; [simpl; tauto | assumption]. }
    destruct (array_index k') as [m |]; [destruct (m <? n)%N |]; simpl; auto.
    constructor.
    + fold (keys (obj_insert_index n k v r)). rewrite keys_insert_index.
      intros [-> | H]; tauto.
    + apply IH; tauto.
Qed.

Lemma NoDup_store k v o :
  List.NoDup (keys o) -> List.NoDup (keys (obj_store k v o)).
Proof.
  unfold obj_store. intros Hd. destruct (obj_has k o) eqn:Hh.
  - now rewrite keys_replace.
  - assert (Hn : ~ In k (keys o)).
    { intros Hin. apply obj_has_In in Hin. congruence. }
    destruct (array_index k).
    + now apply NoDup_insert_index.
    + unfold keys. rewrite map_app. simpl.
      apply List.NoDup_app; auto.
      * constructor; [intros [] | constructor].
      * intros x Hx [<- | []]. tauto.
Qed.

(** The keys after [o[k] = v] are the keys before and, unless it is
    ["__proto__"], [k]. *)
Lemma keys_set k v o k' :
  In k' (keys (obj_set k v o)) <->
  (k' = k /\ k <> "__proto__") \/ In k' (keys o).
Proof.
  unfold obj_set. destruct (String.eqb k "__proto__") eqn:Hp.
  - apply String.eqb_eq in Hp. intuition.
  - apply String.eqb_neq in Hp. rewrite keys_store. intuition.
Qed.

(** Reading the own property [k] after [o[k] = v] gives [v], whatever [o]
    held. *)
Lemma get_set k v o : k <> "__proto__" -> obj_get k (obj_set k v o) = Some v.
Proof.
  intros Hp. apply String.eqb_neq in Hp. unfold obj_set. rewrite Hp.
  apply get_store.
Qed.

Lemma length_set k v o :
  length (obj_set k v o) =
  if String.eqb k "__proto__" then length o
  else if obj_has k o then length o else S (length o).
Proof.
  unfold obj_set. destruct (String.eqb k "__proto__"); [reflexivity |].
  apply length_store.
Qed.

Lemma length_set_le k v o : length (obj_set k v o) <= S (length o).
Proof.
  rewrite length_set.
  destruct (String.eqb k "__proto__"); [| destruct (obj_has k o)]; lia.
Qed.

(** A JavaScript object holds each key once. *)
Lemma NoDup_set k v o : List.NoDup (keys o) -> List.NoDup (keys (obj_set k v o)).
Proof.
  unfold obj_set. intros Hd. destruct (String.eqb k "__proto__"); [assumption |].
  now apply NoDup_store.
Qed.

End Objects.

(** ** The monad *)

Section Monad.
Context {E : Env}.

Lemma bind_Ok {A B} (m : M A) (f : A -> M B) s b s' :
  bind m f s = (Ok b, s') ->
  exists a s1, m s = (Ok a, s1) /\ f a s1 = (Ok b, s').
Proof.
  unfold bind. destruct (m s) as [[a | e] s1]; intros H; [eauto | discriminate].
Qed.

Lemma bind_Err {A B} (m : M A) (f : A -> M B) s e s' :
  bind m f s = (Err e, s') ->
  m s = (Err e, s') \/ exists a s1, m s = (Ok a, s1) /\ f a s1 = (Err e, s').
Proof.
  unfold bind. destruct (m s) as [[a | e1] s1]; intros H; [eauto |].
  left. congruence.
Qed.

Lemma bind_run_Ok {A B} (m : M A) (f : A -> M B) s a s1 :
  m s = (Ok a, s1) -> bind m f s = f a s1.
Proof. unfold bind. now intros ->. Qed.

Lemma bind_run_Err {A B} (m : M A) (f : A -> M B) s e s1 :
  m s = (Err e, s1) -> bind m f s = (Err e, s1).
Proof. unfold bind. now intros ->. Qed.

Lemma catch_Ok {A} (m : M A) h s a s' :
  (forall e s1 s2 a', h e s1 <> (Ok a', s2)) ->
  catch m h s = (Ok a, s') -> m s = (Ok a, s').
Proof.
  unfold catch. intros Hh. destruct (m s) as [[a1 | e] s1]; intros H; [assumption |].
  exfalso. eapply Hh, H.
Qed.

Lemma rethrow_not_Ok {A} msg e s1 s2 (a : A) :
  bind (console_error msg) (fun _ => throw e) s1 <> (Ok a, s2).
Proof. unfold bind, console_error, throw. simpl. discriminate. Qed.

Lemma logged_Ok {A} msg (m : M A) s a s' :
  logged msg m s = (Ok a, s') -> m s = (Ok a, s').
Proof. apply catch_Ok. intros. apply rethrow_not_Ok. Qed.

Lemma logged_run_Ok {A} msg (m : M A) s a s' :
  m s = (Ok a, s') -> logged msg m s = (Ok a, s').
Proof. unfold logged, catch. now intros ->. Qed.


Lemma invoke_trace {R} (c : chainE R) s r s' :
  invoke c s = (r, s') -> trace s' = (trace s ++ [callOf c])%list.
Proof.
  unfold invoke. destruct (perform c (chain_state s)) as [[a |] ch];
    intros H; inversion H; reflexivity.
Qed.

Lemma invoke_Err {R} (c : chainE R) s e s' :
  invoke c s = (Err e, s') ->
  e = Rejected /\ fst (perform c (chain_state s)) = None.
Proof.
  unfold invoke. destruct (perform c (chain_state s)) as [[a |] ch];
    intros H; inversion H; auto.
Qed.

Lemma invoke_Ok {R} (c : chainE R) s a s' :
  invoke c s = (Ok a, s') ->
  perform c (chain_state s) = (Some a, chain_state s') /\
  trace s' = (trace s ++ [callOf c])%list /\ console s' = console s.
Proof.
  unfold invoke. destruct (perform c (chain_state s)) as [[a1 |] ch];
    intros H; inversion H; subst; simpl; auto.
Qed.

(** ** Argument resolution *)

Lemma resolveArgs_state o msg names s r s' :
  resolveArgs o msg names s = (r, s') -> s' = s.
Proof.
  assert (H : snd (resolveArgs o msg names s) = s).
  { induction names as [| a l IH]; simpl; [reflexivity |].
    destruct (nullish (opt_get o a)); simpl; [reflexivity |].
    unfold bind. destruct (resolveArgs o msg l s) as [[vs | e] s1]; exact IH. }
  intros Hr. rewrite Hr in H. now simpl in H.
Qed.

Lemma resolveArgs_all o msg names s :
  forallb (present o) names = true ->
  resolveArgs o msg names s = (Ok (map (opt_get o) names), s).
Proof.
  induction names as [| a l IH]; simpl; [reflexivity |].
  unfold present at 1. intros H. apply andb_prop in H as [Ha Hl].
  rewrite Ha. unfold bind. now rewrite IH.
Qed.

Lemma resolveArgs_missing o msg pre argName post s :
  forallb (present o) pre = true ->
  nullish (opt_get o argName) = true ->
  resolveArgs o msg (pre ++ argName :: post) s = (Err (Error (msg argName)), s).
Proof.
  intros Hpre Hn. induction pre as [| a l IH]; simpl.
  - now rewrite Hn.
  - simpl in Hpre. apply andb_prop in Hpre as [Ha Hl]. unfold present in Ha.
    rewrite Ha. unfold bind. now rewrite IH.
Qed.

(** Either every declared argument is present, or there is a first one that
    is null or undefined. *)
Lemma first_missing o names :
  forallb (present o) names = true \/
  exists pre argName post,
    names = (pre ++ argName :: post)%list /\
    forallb (present o) pre = true /\ nullish (opt_get o argName) = true.
Proof.
  induction names as [| a l IH]; simpl; [now left |].
  destruct (present o a) eqn:Ha; simpl.
  - destruct IH as [IH | (pre & x & post & -> & Hp & Hx)]; [now left | right].
    exists (a :: pre), x, post. simpl. now rewrite Ha.
  - right. exists [], a, l. unfold present in Ha.
    apply negb_false_iff in Ha. auto.
Qed.

(** ** deployContract *)

Lemma deployContract_absent config o s :
  truthy (opt_get o (name config)) = false ->
  deployContract config o s = (Err (notFound config), s).
Proof. unfold deployContract. now intros ->. Qed.

Lemma deployContract_args config o s names :
  truthy (opt_get o (name config)) = true ->
  deploymentArgs config = Some names -> names <> [] ->
  deployContract config o s =
  bind (resolveArgs o (fun argName => "Missing deployment argument <" +:+ argName
                                      +:+ "> for " +:+ name config) names)
       (fun args => invoke (DeployFunction (opt_get o (name config))
                              (Some args) VUndefined)) s.
Proof.
  unfold deployContract. intros -> -> Hne. simpl.
  destruct names; [congruence | reflexivity].
Qed.

Lemma deployContract_noargs config o s :
  truthy (opt_get o (name config)) = true ->
  deploymentArgs config = None \/ deploymentArgs config = Some [] ->
  deployContract config o s =
  invoke (DeployFunction (opt_get o (name config)) None VUndefined) s.
Proof. unfold deployContract. intros -> [-> | ->]; reflexivity. Qed.

Lemma deployContract_resolved config o s names :
  truthy (opt_get o (name config)) = true ->
  deploymentArgs config = Some names -> names <> [] ->
  forallb (present o) names = true ->
  deployContract config o s =
  invoke (DeployFunction (opt_get o (name config))
            (Some (map (opt_get o) names)) VUndefined) s.
Proof.
  intros Hc Hd Hne Hall. rewrite (deployContract_args _ _ s _ Hc Hd Hne).
  unfold bind. now rewrite resolveArgs_all.
Qed.

Lemma deployContract_missing config o s pre argName post :
  truthy (opt_get o (name config)) = true ->
  deploymentArgs config = Some (pre ++ argName :: post)%list ->
  forallb (present o) pre = true ->
  nullish (opt_get o argName) = true ->
  deployContract config o s = (Err (missingArgument config argName), s).
Proof.
  intros Hc Hd Hpre Hn. rewrite (deployContract_args _ _ s _ Hc Hd).
  - unfold bind. now rewrite resolveArgs_missing.
  - now destruct pre.
Qed.

(** A run of [deployContract] issues at most one call, a [deployFunction]
    one. *)
Lemma deployContract_calls config o s r s' :
  deployContract config o s = (r, s') ->
  s' = s /\ (exists e, r = Err e /\ e <> Rejected) \/
  exists args,
    invoke (DeployFunction (opt_get o (name config)) args VUndefined) s = (r, s').
Proof.
  destruct (truthy (opt_get o (name config))) eqn:Hc.
  2:{ rewrite deployContract_absent by assumption. intros H. inversion H; subst.
      left. split; [reflexivity |]. eexists. split; [reflexivity | discriminate]. }
  destruct (deploymentArgs config) as [[| a l] |] eqn:Hd.
  - rewrite deployContract_noargs by auto. eauto.
  - destruct (first_missing o (a :: l)) as [Hall | (pre & x & post & Heq & Hp & Hx)].
    + rewrite (deployContract_resolved _ _ s _ Hc Hd) by (auto; discriminate). eauto.
    + rewrite Heq in Hd. rewrite (deployContract_missing _ _ s _ _ _ Hc Hd Hp Hx).
      intros H. inversion H; subst. left. split; [reflexivity |].
      eexists. split; [reflexivity | discriminate].
  - rewrite deployContract_noargs by auto. eauto.
Qed.

(** C2: [deployContract] fails with an error naming the descriptor's contract
    when the options bag has no contract under that name; with a non-empty
    [deploymentArgs] it resolves every argument by name and fails, naming the
    first missing argument and the descriptor, when one is absent, calling the
    deploy primitive with the resolved arguments in order only when all of
    them resolve; with no declared argument it calls the primitive with no
    argument list; and whenever it fails, either no call was issued at all or
    the single deploy call it issued was rejected by the chain client. *)
Theorem deployContract_contract (config : config) (o : options) (s : state) :
  (truthy (opt_get o (name config)) = false ->
   deployContract config o s = (Err (notFound config), s)) /\
  (truthy (opt_get o (name config)) = true ->
   (forall pre argName post,
      deploymentArgs config = Some (pre ++ argName :: post)%list ->
      forallb (present o) pre = true ->
      nullish (opt_get o argName) = true ->
      deployContract config o s = (Err (missingArgument config argName), s)) /\
   (forall names,
      deploymentArgs config = Some names -> names <> [] ->
      forallb (present o) names = true ->
      deployContract config o s =
      invoke (DeployFunction (opt_get o (name config))
                (Some (map (opt_get o) names)) VUndefined) s) /\
   (deploymentArgs config = None \/ deploymentArgs config = Some [] ->
    deployContract config o s =
    invoke (DeployFunction (opt_get o (name config)) None VUndefined) s)) /\
  (forall e s',
     deployContract config o s = (Err e, s') ->
     s' = s \/
     exists args,
       let c := DeployFunction (opt_get o (name config)) args VUndefined in
       e = Rejected /\ fst (perform c (chain_state s)) = None /\
       trace s' = (trace s ++ [callOf c])%list).
Proof.
  split; [apply deployContract_absent |]. split.
  - intros Hc. repeat split.
    + intros. now apply deployContract_missing with (pre := pre) (post := post).
    + intros. now apply deployContract_resolved.
    + now apply deployContract_noargs.
  - intros e s' H. apply deployContract_calls in H as [[-> _] | [args H]];
      [now left | right].
    exists args. simpl. destruct (invoke_Err _ _ _ _ H) as [-> Hp].
    repeat split; auto. eapply invoke_trace, H.
Qed.

End Monad.

Section Installer.
Context {E : Env}.

(** C9: a declared deployment argument counts as missing exactly when its
    value in the options bag is null or undefined, so that [0], [false] and
    the empty string are passed on to the deploy primitive as they are,
    whereas the contract registered under the descriptor's name counts as
    absent as soon as it is falsy. *)
Theorem deployContract_falsy (config : config) (o : options) (s : state) :
  (forall names,
     truthy (opt_get o (name config)) = true ->
     deploymentArgs config = Some names -> names <> [] ->
     ((forall argName, In argName names ->
         opt_get o argName <> VUndefined /\ opt_get o argName <> VNull) <->
      deployContract config o s =
      invoke (DeployFunction (opt_get o (name config))
                (Some (map (opt_get o) names)) VUndefined) s)) /\
  (truthy (opt_get o (name config)) = false ->
   deployContract config o s = (Err (notFound config), s)) /\
  (forall v, In v [VNum 0; VBool false; VStr ""] ->
     truthy v = false /\ nullish v = false).
Proof.
  split; [| split].
  - intros names Hc Hd Hne. split.
    + intros Hall. apply deployContract_resolved; auto.
      apply forallb_forall. intros a Ha. unfold present.
      destruct (nullish (opt_get o a)) eqn:Hn; [| reflexivity].
      apply nullish_iff in Hn. destruct (Hall a Ha). tauto.
    + intros Hrun.
      destruct (first_missing o names) as [Hall | (pre & x & post & -> & Hp & Hx)].
      * intros a Ha.
        assert (Hn : nullish (opt_get o a) = false).
        { rewrite forallb_forall in Hall. specialize (Hall a Ha).
          unfold present in Hall. now apply negb_true_iff in Hall. }
        split; intros Heq; rewrite Heq in Hn; discriminate.
      * rewrite (deployContract_missing _ _ s _ _ _ Hc Hd Hp Hx) in Hrun.
        unfold invoke in Hrun.
        destruct (perform _ _) as [[h |] ch]; inversion Hrun.
  - apply deployContract_absent.
  - intros v Hv. destruct Hv as [<- | [<- | [<- | []]]]; split; reflexivity.
Qed.

(** C5: with the [offchainVoting] flag unset (any falsy value), whatever the
    other options, [configureOffchainVoting] returns the all-null result and
    leaves the state as it found it: no call reaches the chain client. *)
Theorem configureOffchainVoting_disabled (o : options) (dao daoFactory : handle)
    (extensions : obj deployed) (s : state) :
  truthy (opt_get o "offchainVoting") = false ->
  configureOffchainVoting o dao daoFactory extensions s = (Ok noVotingHelpers, s).
Proof. unfold configureOffchainVoting. now intros ->. Qed.

End Installer.

(** ** The network table *)

(** C8: [getNetworkDetails] returns, for each name of the table, the entry of
    the table that carries this name, and nothing for any other name; what it
    returns is always an entry of the table under exactly the name asked. *)
Theorem getNetworkDetails_exact :
  (forall n, In n networks -> getNetworkDetails (net_name n) = Some n) /\
  (forall name', (forall n, In n networks -> net_name n <> name') ->
                 getNetworkDetails name' = None) /\
  (forall name' n, getNetworkDetails name' = Some n ->
                   In n networks /\ net_name n = name').
Proof.
  split; [| split].
  - intros n Hn. simpl in Hn.
    repeat (destruct Hn as [<- | Hn]; [reflexivity |]). destruct Hn.
  - intros name' Hnone. unfold getNetworkDetails.
    destruct (find _ networks) as [n |] eqn:Hf; [| reflexivity].
    apply find_some in Hf as [Hin Heq]. apply String.eqb_eq in Heq.
    now destruct (Hnone n Hin).
  - intros name' n H. unfold getNetworkDetails in H.
    apply find_some in H as [Hin Heq]. split; [assumption |].
    now apply String.eqb_eq.
Qed.

(** ** Promise chains *)

Section Emits.
Context {E : Env}.
Variable P : call -> Prop.

Lemma emits_ret {A} (a : A) : emits P (ret a).
Proof.
  intros s r s' H. inversion H; subst. exists []. now rewrite app_nil_r.
Qed.

Lemma emits_throw {A} e : emits P (@throw _ A e).
Proof.
  intros s r s' H. inversion H; subst. exists []. now rewrite app_nil_r.
Qed.

Lemma emits_console msg : emits P (console_error msg).
Proof.
  intros s r s' H. inversion H; subst. exists []. simpl. now rewrite app_nil_r.
Qed.

Lemma emits_invoke {R} (c : chainE R) : P (callOf c) -> emits P (invoke c).
Proof.
  intros Hc s r s' H. apply invoke_trace in H. eauto.
Qed.

Lemma emits_bind {A B} (m : M A) (f : A -> M B) :
  emits P m -> (forall a, emits P (f a)) -> emits P (bind m f).
Proof.
  intros Hm Hf s r s'. unfold bind.
  destruct (m s) as [[a | e] s1] eqn:Hms; intros H.
  - destruct (Hm _ _ _ Hms) as (t1 & Ht1 & HP1).
    destruct (Hf a _ _ _ H) as (t2 & Ht2 & HP2).
    exists (t1 ++ t2)%list. rewrite Ht2, Ht1, app_assoc.
    split; [reflexivity | now apply Forall_app].
  - inversion H; subst. eapply Hm, Hms.
Qed.

Lemma emits_catch {A} (m : M A) (h : error -> M A) :
  emits P m -> (forall e, emits P (h e)) -> emits P (catch m h).
Proof.
  intros Hm Hh s r s'. unfold catch.
  destruct (m s) as [[a | e] s1] eqn:Hms; intros H.
  - inversion H; subst. eapply Hm, Hms.
  - destruct (Hm _ _ _ Hms) as (t1 & Ht1 & HP1).
    destruct (Hh e _ _ _ H) as (t2 & Ht2 & HP2).
    exists (t1 ++ t2)%list. rewrite Ht2, Ht1, app_assoc.
    split; [reflexivity | now apply Forall_app].
Qed.

Lemma emits_logged {A} msg (m : M A) : emits P m -> emits P (logged msg m).
Proof.
  intros Hm. apply emits_catch; [assumption |]. intros e.
  apply emits_bind; [apply emits_console | intros; apply emits_throw].
Qed.

Lemma emits_fold {X A} (step : M A -> X -> M A) (l : list X) :
  (forall x, In x l -> forall p, emits P p -> emits P (step p x)) ->
  forall p, emits P p -> emits P (fold_left step l p).
Proof.
  induction l as [| x r IH]; simpl; intros Hstep p Hp; [assumption |].
  apply IH; auto.
Qed.

Lemma emits_resolveArgs o msg names : emits P (resolveArgs o msg names).
Proof.
  intros s r s' H. apply resolveArgs_state in H. subst.
  exists []. now rewrite app_nil_r.
Qed.

Lemma emits_embedded h : emits P (embedded h).
Proof.
  unfold embedded. destruct (configs h); [apply emits_ret | apply emits_throw].
Qed.

End Emits.

Lemma emits_weaken {E : Env} {A} (P Q : call -> Prop) (m : M A) :
  (forall c, P c -> Q c) -> emits P m -> emits Q m.
Proof.
  intros HPQ Hm s r s' H. destruct (Hm _ _ _ H) as (t & Ht & HP).
  exists t. split; [assumption |]. eapply Forall_impl; eauto.
Qed.

Section Chains.
Context {E : Env} {X A : Type}.
Variable step : M A -> X -> M A.
Variable body : X -> A -> M A.

(** A chain that succeeds ran its callbacks one after the other. *)
Lemma chain_Ok :
  (forall p x s a s', step p x s = (Ok a, s') ->
     exists a0 s0, p s = (Ok a0, s0) /\ body x a0 s0 = (Ok a, s')) ->
  forall l p s a s',
    fold_left step l p s = (Ok a, s') ->
    exists a0 s0, p s = (Ok a0, s0) /\ loop body l a0 s0 = (Ok a, s').
Proof.
  intros Hstep. induction l as [| x r IH]; simpl; intros p s a s' H.
  - exists a, s'. split; [assumption | reflexivity].
  - destruct (IH _ _ _ _ H) as (a1 & s1 & H1 & Hr).
    destruct (Hstep _ _ _ _ _ H1) as (a0 & s0 & Hp & Hb).
    exists a0, s0. split; [assumption |]. now rewrite (bind_run_Ok _ _ _ _ _ Hb).
Qed.

(** A chain whose start has failed runs none of its callbacks. *)
Lemma chain_failed :
  (forall p x s e s', p s = (Err e, s') -> step p x s = (Err e, s')) ->
  forall l p s e s',
    p s = (Err e, s') -> fold_left step l p s = (Err e, s').
Proof.
  intros Hstep. induction l as [| x r IH]; simpl; intros p s e s' H; auto.
Qed.

(** A chain that fails does so at its start or in one of its callbacks. *)
Lemma chain_Err :
  (forall p x s e s', step p x s = (Err e, s') ->
     (exists s0, p s = (Err e, s0)) \/
     exists a0 s0 s1, body x a0 s0 = (Err e, s1)) ->
  forall l p s e s',
    fold_left step l p s = (Err e, s') ->
    (exists s0, p s = (Err e, s0)) \/
    exists x a0 s0 s1, In x l /\ body x a0 s0 = (Err e, s1).
Proof.
  intros Hstep. induction l as [| x r IH]; simpl; intros p s e s' H.
  - left. eauto.
  - destruct (IH _ _ _ _ H) as [[s0 H0] | (y & a0 & s0 & s1 & Hy & Hb)].
    + destruct (Hstep _ _ _ _ _ H0) as [Hp | (a0 & s1 & s2 & Hb)]; [now left |].
      right. exists x, a0, s1, s2. auto.
    + right. exists y, a0, s0, s1. auto.
Qed.

(** Whatever a chain does, it does after its start. *)
Lemma chain_extends :
  (forall p x s r s', step p x s = (r, s') ->
     exists r0 s0 t, p s = (r0, s0) /\ trace s' = (trace s0 ++ t)%list) ->
  forall l p s r s',
    fold_left step l p s = (r, s') ->
    exists r0 s0 t, p s = (r0, s0) /\ trace s' = (trace s0 ++ t)%list.
Proof.
  intros Hstep. induction l as [| x l IH]; simpl; intros p s r s' H.
  - exists r, s', []. now rewrite app_nil_r.
  - destruct (IH _ _ _ _ H) as (r1 & s1 & t1 & H1 & Ht1).
    destruct (Hstep _ _ _ _ _ H1) as (r0 & s0 & t0 & H0 & Ht0).
    exists r0, s0, (t0 ++ t1)%list. split; [assumption |].
    now rewrite Ht1, Ht0, app_assoc.
Qed.


End Chains.

(** ** createFactories *)

Section Factories.
Context {E : Env}.

Lemma autoDeployed_In t o config :
  In config (autoDeployed t o) <->
  In config (contractConfigs o) /\ type config = t /\
  enabled config = true /\ skipAutoDeploy config = false.
Proof.
  unfold autoDeployed. rewrite !filter_In, negb_true_iff.
  assert (Ht : ContractType_eqb (type config) t = true <-> type config = t).
  { destruct (type config), t; simpl; split; congruence. }
  rewrite Ht. tauto.
Qed.

Lemma deployFactory_unresolved o config s :
  findById o (generatesExtensionId config) = None ->
  deployFactory o config s =
  (Err (if truthy (opt_get o (name config)) then missingExtensionConfig config
        else missingFactory config), s).
Proof.
  unfold deployFactory. intros ->.
  now destruct (truthy (opt_get o (name config))).
Qed.

Lemma factoryStep_failed o p config s e s' :
  p s = (Err e, s') -> factoryStep o p config s = (Err e, s').
Proof. apply bind_run_Err. Qed.

Lemma emits_deployFactory o config :
  In config (autoDeployed Factory o) ->
  emits (factoryDeployment o) (deployFactory o config).
Proof.
  intros Hin. unfold deployFactory.
  destruct (truthy (opt_get o (name config))); simpl; [| apply emits_throw].
  destruct (findById o (generatesExtensionId config)) as [ec |] eqn:Hf;
    [| apply emits_throw].
  destruct (truthy (opt_get o (name ec))); simpl; [| apply emits_throw].
  apply emits_logged, emits_invoke. exists config, ec. auto.
Qed.

Lemma emits_createFactories o : emits (factoryDeployment o) (createFactories o).
Proof.
  unfold createFactories, factoriesChain.
  apply emits_fold; [| apply emits_ret].
  intros config Hin p Hp. unfold factoryStep, factoryBody.
  apply emits_bind; [assumption | intros factories].
  apply emits_bind; [now apply emits_deployFactory | intros h].
  apply emits_bind; [apply emits_embedded | intros d; apply emits_ret].
Qed.

End Factories.

(** ** DAO parameter configuration *)

Section Parameters.
Context {E : Env}.
Variables (extensions adapters : obj deployed) (o : options).

Lemma existsb_eqb_In (x : string) (l : list string) :
  existsb (String.eqb x) l = true <-> In x l.
Proof.
  rewrite existsb_exists. split.
  - intros (y & Hy & Heq). apply String.eqb_eq in Heq. now subst.
  - intros H. exists x. split; [assumption | apply String.eqb_refl].
Qed.

Lemma readConfigValue_run configName contractName s :
  readConfigValue extensions o configName contractName s =
  match resolveParameter extensions o configName with
  | Some v => (Ok v, s)
  | None => (Err (parameterError configName contractName), s)
  end.
Proof.
  unfold readConfigValue, resolveParameter.
  destruct (in_dec String.string_dec configName extensionsIdsMap) as [Hin | Hin].
  - apply existsb_eqb_In in Hin. rewrite Hin.
    destruct (find _ (values extensions)) as [ext |]; [| reflexivity].
    now destruct (truthy (d_address ext)).
  - destruct (existsb (String.eqb configName) extensionsIdsMap) eqn:Hex.
    + apply existsb_eqb_In in Hex. contradiction.
    + now destruct (truthy (opt_get o configName)).
Qed.

Lemma readConfigValues_run configEntry contractName s r s' :
  readConfigValues extensions o configEntry contractName s = (r, s') ->
  s' = s /\
  (r = Ok (map (resolved extensions o) configEntry) \/
   exists configName,
     In configName configEntry /\
     resolveParameter extensions o configName = None /\
     r = Err (parameterError configName contractName)).
Proof.
  revert r s'. induction configEntry as [| n l IH]; simpl; intros r s'.
  - intros H. inversion H. auto.
  - unfold bind. rewrite readConfigValue_run. unfold resolved at 1.
    destruct (resolveParameter extensions o n) as [v |] eqn:Hn.
    + destruct (readConfigValues extensions o l contractName s)
        as [[vs | e] s1] eqn:Hl;
        destruct (IH _ _ eq_refl) as [-> [Hr | (m & Hm & Hnone & Hr)]];
        intros H; inversion H; subst; split; auto; try discriminate.
      * left. inversion Hr. reflexivity.
      * right. exists m. auto.
    + intros H. inversion H; subst. split; [reflexivity | right].
      exists n. auto.
Qed.


Lemma configureGroup_Err adapter configEntry s e s' :
  configureGroup extensions o adapter configEntry s = (Err e, s') ->
  e = Rejected \/
  exists configName,
    In configName configEntry /\
    resolveParameter extensions o configName = None /\
    e = parameterError configName (name (d_configs adapter)).
Proof.
  unfold configureGroup. intros H.
  apply bind_Err in H as [H | (vs & s1 & Hv & H)].
  - apply readConfigValues_run in H as [_ [H | (n & Hn & Hnone & H)]];
      [discriminate |].
    right. exists n. inversion H. auto.
  - left. unfold catch in H.
    destruct (invoke _ s1) as [[u | e1] s2] eqn:Hi; [discriminate |].
    apply invoke_Err in Hi as [-> _].
    unfold bind, console_error, throw in H. simpl in H. congruence.
Qed.



Lemma configureGroups_Err adapter s e s' :
  configureGroups extensions o adapter s = (Err e, s') ->
  e = Rejected \/ unresolved extensions o adapter e.
Proof.
  unfold configureGroups. intros H.
  apply (chain_Err _ (fun configEntry (_ : unit) =>
                        configureGroup extensions o adapter configEntry)) in H.
  - destruct H as [[s0 H] | (g & u0 & s0 & s1 & Hg & H)]; [discriminate |].
    apply configureGroup_Err in H as [-> | (n & Hn & Hnone & ->)]; [now left |].
    right. exists g, n. auto.
  - intros p x s1 e1 s2 Hs. apply bind_Err in Hs as [Hs | (a & s3 & _ & Hs)];
      [left | right]; eauto.
Qed.











End Parameters.

(** ** The phases of deployDao *)

Ltac emits_step :=
  first
    [ apply emits_ret | apply emits_throw | apply emits_console
    | apply emits_resolveArgs | apply emits_embedded
    | apply emits_invoke; reflexivity
    | apply emits_logged
    | apply emits_bind; [| intros ?]
    | apply emits_catch; [| intros ?]
    | match goal with
      | |- emits _ (if ?b then _ else _) => destruct b
      | |- emits _ (match ?x with _ => _ end) => destruct x
      end ].

Ltac emits_auto := repeat emits_step.

Section Phases.
Context {E : Env}.

Lemma quiet_cloneDao o daoName : emits quiet (cloneDao o daoName).
Proof. unfold cloneDao. emits_auto. Qed.

Lemma quiet_createFactories o : emits quiet (createFactories o).
Proof.
  eapply emits_weaken; [| apply emits_createFactories].
  intros c (config & ec & _ & _ & ->). reflexivity.
Qed.

Lemma quiet_createExtension dao factory o :
  emits quiet (createExtension dao factory o).
Proof. unfold createExtension. emits_auto. Qed.

Lemma quiet_createExtensions dao factories o :
  emits quiet (createExtensions dao factories o).
Proof.
  unfold createExtensions, extensionsChain.
  apply emits_fold; [| apply emits_ret].
  intros factory _ p Hp. unfold extensionStep, extensionBody.
  apply emits_logged. apply emits_bind; [assumption | intros extensions].
  apply emits_bind; [apply quiet_createExtension | intros; apply emits_ret].
Qed.

Lemma quiet_deployContract config o : emits quiet (deployContract config o).
Proof. unfold deployContract. emits_auto. Qed.

Lemma quiet_deployChain msg o l :
  emits quiet (deployChain msg o l (ret [])).
Proof.
  unfold deployChain. apply emits_fold; [| apply emits_ret].
  intros config _ p Hp. unfold deployStep, deployBody.
  apply emits_logged. apply emits_bind; [assumption | intros contracts].
  apply emits_bind; [apply quiet_deployContract | intros h].
  emits_auto.
Qed.

Lemma settled_readConfigValues extensions o configEntry contractName :
  emits settled (readConfigValues extensions o configEntry contractName).
Proof.
  intros s r s' H. apply readConfigValues_run in H as [-> _].
  exists []. now rewrite app_nil_r.
Qed.

Lemma settled_configureExtensionAccess owner dao daoFactory contracts ext :
  emits settled (configureExtensionAccess owner dao daoFactory contracts ext).
Proof. unfold configureExtensionAccess. emits_auto. Qed.

Lemma settled_configureDao owner dao daoFactory extensions adapters o :
  emits settled (configureDao owner dao daoFactory extensions adapters o).
Proof.
  unfold configureDao, configureAdapters, configureExtensions.
  apply emits_bind; [| intros _].
  - apply emits_bind;
      [unfold configureAdaptersWithDAOAccess; emits_auto | intros _].
    apply emits_bind; [| intros _].
    + unfold configureAdaptersWithDAOParameters.
      apply emits_fold; [| apply emits_ret].
      intros adapter _ p Hp. unfold parametersStep. apply emits_logged.
      apply emits_bind; [assumption | intros _]. unfold configureGroups.
      apply emits_fold; [| apply emits_ret].
      intros configEntry _ q Hq. apply emits_bind; [assumption | intros _].
      unfold configureGroup.
      apply emits_bind; [apply settled_readConfigValues | intros vs].
      emits_auto.
    + apply emits_fold; [| apply emits_ret].
      intros target _ p Hp. unfold adaptersAccessStep.
      apply emits_catch.
      * apply emits_bind; [assumption | intros _].
        apply settled_configureExtensionAccess.
      * intros e. emits_auto.
  - apply emits_fold; [| apply emits_ret].
    intros target _ p Hp. unfold extensionsAccessStep.
    apply emits_catch.
    + apply emits_bind; [assumption | intros _].
      apply settled_configureExtensionAccess.
    + intros e. emits_auto.
Qed.

(** A run of [deployDao] that completes went through every phase in turn. *)
Lemma deployDao_Ok options0 s r s' :
  deployDao options0 s = (Ok r, s') ->
  exists dao daoFactory factories extensions adapters votingHelpers
         utilContracts testContracts s0 s1 s2 s3 s4 s5 s6 s7,
    let o := deployOptions options0 (address dao) in
    cloneDao options0 (daoNameOf options0) s = (Ok (dao, daoFactory), s0) /\
    createFactories o s0 = (Ok factories, s1) /\
    createExtensions dao factories o s1 = (Ok extensions, s2) /\
    createAdapters o s2 = (Ok adapters, s3) /\
    configureDao (opt_get o "owner") dao daoFactory extensions adapters o s3
    = (Ok tt, s4) /\
    configureOffchainVoting o dao daoFactory extensions s4
    = (Ok votingHelpers, s5) /\
    createUtilContracts o s5 = (Ok utilContracts, s6) /\
    createTestContracts o s6 = (Ok testContracts, s7) /\
    finalizeDao dao o s7 = (Ok tt, s') /\
    r = {| r_dao := dao;
           r_adapters := withOffchainVoting votingHelpers adapters;
           r_extensions := extensions;
           r_testContracts := testContracts;
           r_utilContracts := utilContracts;
           r_votingHelpers := votingHelpers;
           r_factories := withDaoFactory factories daoFactory |}.
Proof.
  unfold deployDao. intros H.
  apply bind_Ok in H as ([dao daoFactory] & s0 & H0 & H). simpl in H.
  apply bind_Ok in H as (factories & s1 & H1 & H).
  apply bind_Ok in H as (extensions & s2 & H2 & H).
  apply bind_Ok in H as (adapters & s3 & H3 & H).
  apply bind_Ok in H as ([] & s4 & H4 & H).
  apply bind_Ok in H as (votingHelpers & s5 & H5 & H).
  apply bind_Ok in H as (utilContracts & s6 & H6 & H).
  apply bind_Ok in H as (testContracts & s7 & H7 & H).
  apply bind_Ok in H as ([] & s8 & H8 & H).
  inversion H; subst.
  exists dao, daoFactory, factories, extensions, adapters, votingHelpers,
    utilContracts, testContracts, s0, s1, s2, s3, s4, s5, s6, s7.
  simpl. repeat split; assumption.
Qed.

Lemma emits_trans (P : call -> Prop) s s1 s2 t1 t2 :
  trace s1 = (trace s ++ t1)%list -> Forall P t1 ->
  trace s2 = (trace s1 ++ t2)%list -> Forall P t2 ->
  exists t, trace s2 = (trace s ++ t)%list /\ Forall P t.
Proof.
  intros H1 P1 H2 P2. exists (t1 ++ t2)%list.
  rewrite H2, H1, app_assoc. split; [reflexivity | now apply Forall_app].
Qed.

(** C4 (amended): in a run of [deployDao] that completes, [configureDao]
    starts once [createFactories], [createExtensions] and [createAdapters]
    have completed, no access-configuration call having been issued until
    then, and itself issues no deployment call; the off-chain voting
    installer, [createUtilContracts] and [createTestContracts] run after it
    has finished. *)
Theorem configureDao_after_adapters (options0 : options) (s : state)
    (r : result) (s' : state) :
  deployDao options0 s = (Ok r, s') ->
  exists dao daoFactory factories adapters o s1 s2 s3 s4,
    createFactories o s1 = (Ok factories, s2) /\
    createExtensions dao factories o s2 = (Ok (r_extensions r), s3) /\
    createAdapters o s3 = (Ok adapters, s4) /\
    (exists t, trace s4 = (trace s ++ t)%list /\ Forall quiet t) /\
    exists s5 s6 s7 s8,
      configureDao (opt_get o "owner") dao daoFactory (r_extensions r)
        adapters o s4 = (Ok tt, s5) /\
      (exists t, trace s5 = (trace s4 ++ t)%list /\ Forall settled t) /\
      configureOffchainVoting o dao daoFactory (r_extensions r) s5
      = (Ok (r_votingHelpers r), s6) /\
      createUtilContracts o s6 = (Ok (r_utilContracts r), s7) /\
      createTestContracts o s7 = (Ok (r_testContracts r), s8) /\
      r_adapters r = withOffchainVoting (r_votingHelpers r) adapters /\
      r_factories r = withDaoFactory factories daoFactory.
Proof.
  intros H. apply deployDao_Ok in H
    as (dao & daoFactory & factories & extensions & adapters & votingHelpers
        & utilContracts & testContracts & s0 & s1 & s2 & s3 & s4 & s5 & s6
        & s7 & H0 & H1 & H2 & H3 & H4 & H5 & H6 & H7 & H8 & ->).
  simpl. exists dao, daoFactory, factories, adapters,
    (deployOptions options0 (address dao)), s0, s1, s2, s3.
  repeat split; try assumption.
  - destruct (quiet_cloneDao _ _ _ _ _ H0) as (t0 & Ht0 & P0).
    destruct (quiet_createFactories _ _ _ _ H1) as (t1 & Ht1 & P1).
    destruct (quiet_createExtensions _ _ _ _ _ _ H2) as (t2 & Ht2 & P2).
    destruct (quiet_deployChain _ _ _ _ _ _ H3) as (t3 & Ht3 & P3).
    destruct (emits_trans _ _ _ _ _ _ Ht0 P0 Ht1 P1) as (ta & Hta & Pa).
    destruct (emits_trans _ _ _ _ _ _ Hta Pa Ht2 P2) as (tb & Htb & Pb).
    apply (emits_trans _ _ _ _ _ _ Htb Pb Ht3 P3).
  - exists s4, s5, s6, s7. repeat split; try assumption.
    apply (settled_configureDao _ _ _ _ _ _ _ _ _ H4).
Qed.

End Phases.

(** ** Shapes of the result maps *)

Section Shapes.
Context {A B : Type}.
Variable f : A -> B.

Lemma keys_omap (o : obj A) : keys (omap f o) = keys o.
Proof. unfold keys, omap. rewrite map_map. reflexivity. Qed.

Lemma values_omap (o : obj A) : values (omap f o) = map f (values o).
Proof. unfold values, omap. rewrite !map_map. reflexivity. Qed.

Lemma has_omap k (o : obj A) : obj_has k (omap f o) = obj_has k o.
Proof.
  unfold obj_has, omap. induction o as [| [k' v'] r IH]; simpl; congruence.
Qed.

Lemma omap_replace k v (o : obj A) :
  omap f (obj_replace k v o) = obj_replace k (f v) (omap f o).
Proof.
  induction o as [| [k' v'] r IH]; simpl; [reflexivity |].
  destruct (String.eqb k' k); simpl; [reflexivity | now rewrite IH].
Qed.

Lemma omap_insert_index n k v (o : obj A) :
  omap f (obj_insert_index n k v o) = obj_insert_index n k (f v) (omap f o).
Proof.
  induction o as [| [k' v'] r IH]; simpl; [reflexivity |].
  destruct (array_index k') as [m |]; [destruct (m <? n)%N |]; simpl;
    try reflexivity.
  now rewrite IH.
Qed.

(** Storing under a key commutes with looking through [f]. *)
Lemma omap_set k v (o : obj A) :
  omap f (obj_set k v o) = obj_set k (f v) (omap f o).
Proof.
  unfold obj_set. destruct (String.eqb k "__proto__"); [reflexivity |].
  unfold obj_store. rewrite has_omap. destruct (obj_has k o).
  - apply omap_replace.
  - destruct (array_index k); [apply omap_insert_index |].
    unfold omap. now rewrite map_app.
Qed.

End Shapes.

Lemma keys_shape_eq {A B : Type} (f : A -> unit) (g : B -> unit)
    (o : obj A) (o' : obj B) :
  omap f o = omap g o' -> keys o = keys o'.
Proof.
  intros H. rewrite <- (keys_omap f o), <- (keys_omap g o'). now rewrite H.
Qed.

Section Tagged.
Context {E : Env}.
Variable tag : value -> option config.
Hypothesis Htag : tagging tag.

Lemma embedded_Ok h s d s' :
  embedded h s = (Ok d, s') ->
  s' = s /\ configs h = Some (d_configs d) /\ d_address d = address h.
Proof.
  unfold embedded. destruct (configs h) as [c |]; intros H; inversion H.
  auto.
Qed.

Lemma invoke_deploy_tag contract args from s h s' :
  invoke (DeployFunction contract args from) s = (Ok h, s') ->
  configs h = tag contract.
Proof. intros H. apply invoke_Ok in H as [H _]. eapply Htag, H. Qed.

Lemma deployContract_tag config o s h s' :
  deployContract config o s = (Ok h, s') ->
  configs h = tag (opt_get o (name config)).
Proof.
  intros H. apply deployContract_calls in H as [[_ [e [He _]]] | [args H]];
    [discriminate |].
  eapply invoke_deploy_tag, H.
Qed.

Lemma deployFactory_tag o config s h s' :
  deployFactory o config s = (Ok h, s') ->
  configs h = tag (opt_get o (name config)).
Proof.
  unfold deployFactory.
  destruct (truthy (opt_get o (name config))); simpl; [| discriminate].
  destruct (findById o (generatesExtensionId config)) as [ec |]; [| discriminate].
  destruct (truthy (opt_get o (name ec))); simpl; [| discriminate].
  intros H. apply logged_Ok in H. eapply invoke_deploy_tag, H.
Qed.

Lemma deployBody_shape o config m s m' s' :
  deployBody o config m s = (Ok m', s') ->
  exists c, tag (opt_get o (name config)) = Some c /\
            shape m' = obj_set (alias c) c (shape m).
Proof.
  unfold deployBody. intros H.
  apply bind_Ok in H as (h & s1 & Hd & H).
  apply bind_Ok in H as (d & s2 & He & H).
  apply deployContract_tag in Hd. apply embedded_Ok in He as (_ & Hc & _).
  inversion H; subst. exists (d_configs d). split; [congruence |].
  apply omap_set.
Qed.

Lemma factoryBody_shape o config m s m' s' :
  factoryBody o config m s = (Ok m', s') ->
  exists c, tag (opt_get o (name config)) = Some c /\
            shape m' = obj_set (alias c) c (shape m).
Proof.
  unfold factoryBody. intros H.
  apply bind_Ok in H as (h & s1 & Hd & H).
  apply bind_Ok in H as (d & s2 & He & H).
  apply deployFactory_tag in Hd. apply embedded_Ok in He as (_ & Hc & _).
  inversion H; subst. exists (d_configs d). split; [congruence |].
  apply omap_set.
Qed.

Lemma loop_shape (body : config -> obj deployed -> M (obj deployed)) o :
  (forall config m s m' s',
     body config m s = (Ok m', s') ->
     exists c, tag (opt_get o (name config)) = Some c /\
               shape m' = obj_set (alias c) c (shape m)) ->
  forall l m s m' s',
    loop body l m s = (Ok m', s') ->
    storeAll tag o l (shape m) = Some (shape m').
Proof.
  intros Hbody. induction l as [| config r IH]; simpl; intros m s m' s' H.
  - inversion H. reflexivity.
  - apply bind_Ok in H as (m1 & s1 & H1 & Hr).
    destruct (Hbody _ _ _ _ _ H1) as (c & -> & Hs). rewrite <- Hs. eauto.
Qed.

Lemma deployChain_shape msg o l s m s' :
  deployChain msg o l (ret []) s = (Ok m, s') ->
  storeAll tag o l [] = Some (shape m).
Proof.
  unfold deployChain. intros H.
  apply (chain_Ok _ (deployBody o)) in H.
  - destruct H as (m0 & s0 & Hret & H). inversion Hret; subst.
    apply (loop_shape _ _ (deployBody_shape o)) in H. exact H.
  - intros p x s1 a s2 Hs. apply logged_Ok in Hs. now apply bind_Ok in Hs.
Qed.

Lemma createFactories_shape o s m s' :
  createFactories o s = (Ok m, s') ->
  storeAll tag o (autoDeployed Factory o) [] = Some (shape m).
Proof.
  unfold createFactories, factoriesChain. intros H.
  apply (chain_Ok _ (factoryBody o)) in H.
  - destruct H as (m0 & s0 & Hret & H). inversion Hret; subst.
    apply (loop_shape _ _ (factoryBody_shape o)) in H. exact H.
  - intros p x s1 a s2 Hs. now apply bind_Ok in Hs.
Qed.

Lemma createTestContracts_shape o s m s' :
  createTestContracts o s = (Ok m, s') ->
  (if truthy (opt_get o "deployTestTokens")
   then storeAll tag o (autoDeployed Test o) []
   else Some []) = Some (shape m).
Proof.
  unfold createTestContracts.
  destruct (truthy (opt_get o "deployTestTokens")); simpl.
  - apply deployChain_shape.
  - intros H. inversion H. reflexivity.
Qed.

(** The off-chain voting installer either did nothing or returned its three
    contracts, the voting one tagged by the deploy primitive. *)
Lemma configureOffchainVoting_Ok o dao daoFactory extensions s vh s' :
  configureOffchainVoting o dao daoFactory extensions s = (Ok vh, s') ->
  if truthy (opt_get o "offchainVoting") then
    exists sp hb v,
      vh = {| snapshotProposalContract := Some sp;
              handleBadReporterAdapter := Some hb;
              offchainVoting := Some v |} /\
      tag (opt_get o "OffchainVotingContract") = Some (d_configs v)
  else vh = noVotingHelpers.
Proof.
  unfold configureOffchainVoting.
  destruct (truthy (opt_get o "offchainVoting")); simpl.
  2:{ intros H. inversion H. reflexivity. }
  intros H.
  apply bind_Ok in H as (cur & s1 & _ & H).
  apply bind_Ok in H as (sp & s2 & _ & H).
  apply bind_Ok in H as (hc & s3 & _ & H).
  apply bind_Ok in H as (hb & s4 & _ & H).
  apply bind_Ok in H as (ov & s5 & Hov & H).
  apply bind_Ok in H as (v & s6 & Hv & H).
  apply bind_Ok in H as (u & s7 & _ & H).
  destruct (obj_get "bankExt" extensions) as [bankExt |]; [| discriminate].
  apply bind_Ok in H as (u1 & s8 & _ & H).
  apply bind_Ok in H as (u2 & s9 & _ & H).
  inversion H; subst. exists sp, hb, v. split; [reflexivity |].
  apply invoke_deploy_tag in Hov. apply embedded_Ok in Hv as (_ & Hc & _).
  congruence.
Qed.

End Tagged.

Section Extensions.
Context {E : Env}.

Lemma createExtension_generated dao factory o s d s' :
  createExtension dao factory o s = (Ok d, s') ->
  generated o (d_configs factory) = Some (d_configs d).
Proof.
  unfold createExtension, generated.
  destruct (findById o (generatesExtensionId (d_configs factory))) as [ec |];
    [| discriminate].
  intros H. apply bind_Ok in H as (u & s1 & _ & H).
  apply bind_Ok in H as (addr & s2 & _ & H).
  destruct (truthy (opt_get o (name ec))); simpl in H; [| discriminate].
  destruct (opt_get o (name ec)) as [| | | | | a | |]; try discriminate.
  apply bind_Ok in H as (inst & s3 & _ & H). simpl in H. simpl.
  destruct (find _ (contractConfigs o)) as [c |]; [| discriminate].
  apply bind_Ok in H as (u1 & s4 & _ & H). inversion H. reflexivity.
Qed.

Lemma extensions_loop_shape dao o l : forall m s m' s',
  loop (extensionBody dao o) l m s = (Ok m', s') ->
  generateAll o (map d_configs l) (shape m) = Some (shape m').
Proof.
  induction l as [| f r IH]; simpl; intros m s m' s' H.
  - inversion H. reflexivity.
  - apply bind_Ok in H as (m1 & s1 & H1 & Hr). unfold extensionBody in H1.
    apply bind_Ok in H1 as (d & s2 & Hd & H1). inversion H1; subst.
    apply createExtension_generated in Hd. rewrite Hd.
    apply IH in Hr. unfold shape at 1 in Hr. rewrite omap_set in Hr. exact Hr.
Qed.

Lemma createExtensions_shape dao factories o s m s' :
  createExtensions dao factories o s = (Ok m, s') ->
  generateAll o (values (shape factories)) [] = Some (shape m).
Proof.
  unfold createExtensions, extensionsChain. intros H.
  apply (chain_Ok _ (extensionBody dao o)) in H.
  - destruct H as (m0 & s0 & Hret & H). inversion Hret; subst.
    apply extensions_loop_shape in H. unfold shape at 1.
    now rewrite values_omap.
  - intros p x s1 a s2 Hs. apply logged_Ok in Hs. now apply bind_Ok in Hs.
Qed.

End Extensions.

(** ** The structure of the result aggregate *)

Lemma keys_set_congr {A B : Type} k (v : A) (v' : B) (o : obj A) (o' : obj B) :
  keys o = keys o' -> keys (obj_set k v o) = keys (obj_set k v' o').
Proof.
  intros H.
  assert (Hs : forall (C : Type) (w : C) (m : obj C),
             keys (obj_set k w m) =
             keys (obj_set k tt (map (fun x => (x, tt)) (keys m)))).
  { intros C w m. rewrite <- (keys_omap (fun _ => tt) (obj_set k w m)).
    rewrite omap_set. unfold omap, keys. now rewrite map_map. }
  rewrite (Hs A v o), (Hs B v' o'). now rewrite H.
Qed.

Section Structure.
Context {E : Env}.

Lemma opt_get_set_ne k k' v o :
  k <> k' -> opt_get (opt_set k v o) k' = opt_get o k'.
Proof.
  intros Hne. unfold opt_get, opt_set. simpl.
  now rewrite lookup_insert_ne.
Qed.

Lemma opt_get_deployOptions o a k :
  ~ In k reserved -> opt_get (deployOptions o a) k = opt_get o k.
Proof.
  unfold deployOptions. intros Hk.
  rewrite !opt_get_set_ne; [reflexivity | | |];
    intros Heq; apply Hk; rewrite <- Heq; simpl; auto.
Qed.

Lemma storeAll_agree tag o o' l : forall acc,
  (forall c, In c l -> opt_get o (name c) = opt_get o' (name c)) ->
  storeAll tag o l acc = storeAll tag o' l acc.
Proof.
  induction l as [| c r IH]; simpl; intros acc H; [reflexivity |].
  rewrite (H c) by auto. destruct (tag (opt_get o' (name c))); auto.
Qed.

Lemma findById_In o i c : findById o i = Some c -> In c (contractConfigs o).
Proof.
  unfold findById. destruct i; [| discriminate].
  intros H. now apply find_some in H.
Qed.

Lemma generated_deployOptions o a fc :
  unreserved o -> generated (deployOptions o a) fc = generated o fc.
Proof.
  intros Hu. unfold generated.
  change (findById (deployOptions o a) (generatesExtensionId fc))
    with (findById o (generatesExtensionId fc)).
  destruct (findById o (generatesExtensionId fc)) as [ec |] eqn:Hf;
    [| reflexivity].
  rewrite opt_get_deployOptions; [reflexivity |].
  apply Hu. eapply findById_In, Hf.
Qed.

Lemma generateAll_deployOptions o a l : forall acc,
  unreserved o ->
  generateAll (deployOptions o a) l acc = generateAll o l acc.
Proof.
  induction l as [| fc r IH]; simpl; intros acc Hu; [reflexivity |].
  rewrite generated_deployOptions by assumption.
  destruct (generated o fc); auto.
Qed.

Lemma storeAll_deployOptions tag o a t :
  unreserved o ->
  storeAll tag (deployOptions o a) (autoDeployed t (deployOptions o a)) [] =
  storeAll tag o (autoDeployed t o) [].
Proof.
  intros Hu. change (autoDeployed t (deployOptions o a)) with (autoDeployed t o).
  apply storeAll_agree. intros c Hc. apply opt_get_deployOptions, Hu.
  now apply autoDeployed_In in Hc.
Qed.

(** The maps of a completed run, as the options and the tags determine
    them. *)
Lemma deployDao_shapes tag options0 s r s' :
  tagging tag -> unreserved options0 ->
  deployDao options0 s = (Ok r, s') ->
  exists factories adapters daoFactory,
    storeAll tag options0 (autoDeployed Factory options0) []
    = Some (shape factories) /\
    generateAll options0 (values (shape factories)) []
    = Some (shape (r_extensions r)) /\
    storeAll tag options0 (autoDeployed Adapter options0) []
    = Some (shape adapters) /\
    storeAll tag options0 (autoDeployed Util options0) []
    = Some (shape (r_utilContracts r)) /\
    (if truthy (opt_get options0 "deployTestTokens")
     then storeAll tag options0 (autoDeployed Test options0) []
     else Some []) = Some (shape (r_testContracts r)) /\
    (if truthy (opt_get options0 "offchainVoting") then
       exists sp hb v,
         r_votingHelpers r =
         {| snapshotProposalContract := Some sp;
            handleBadReporterAdapter := Some hb;
            offchainVoting := Some v |} /\
         tag (opt_get options0 "OffchainVotingContract") = Some (d_configs v)
     else r_votingHelpers r = noVotingHelpers) /\
    r_adapters r = withOffchainVoting (r_votingHelpers r) adapters /\
    r_factories r = withDaoFactory factories daoFactory.
Proof.
  intros Htag Hu H. apply deployDao_Ok in H
    as (dao & daoFactory & factories & extensions & adapters & votingHelpers
        & utilContracts & testContracts & s0 & s1 & s2 & s3 & s4 & s5 & s6
        & s7 & H0 & H1 & H2 & H3 & H4 & H5 & H6 & H7 & H8 & ->).
  simpl. exists factories, adapters, daoFactory.
  apply (createFactories_shape tag Htag) in H1.
  apply createExtensions_shape in H2.
  apply (deployChain_shape tag Htag) in H3.
  apply (deployChain_shape tag Htag) in H6.
  apply (createTestContracts_shape tag Htag) in H7.
  apply (configureOffchainVoting_Ok tag Htag) in H5.
  rewrite storeAll_deployOptions in H1, H3, H6 by assumption.
  rewrite generateAll_deployOptions in H2 by assumption.
  rewrite storeAll_deployOptions in H7 by assumption.
  rewrite !opt_get_deployOptions in H5, H7
    by (unfold reserved; simpl; intuition discriminate).
  repeat split; try assumption.
  destruct (truthy (opt_get options0 "offchainVoting")); [| assumption].
  destruct H5 as (sp & hb & v & Hvh & Hc). exists sp, hb, v.
  split; [assumption |].
  rewrite opt_get_deployOptions in Hc
    by (unfold reserved; simpl; intuition discriminate).
  assumption.
Qed.

Lemma shape_keys m m' : shape m = shape m' -> keys m = keys m'.
Proof.
  intros H. rewrite <- (keys_omap d_configs m), <- (keys_omap d_configs m').
  unfold shape in H. now rewrite H.
Qed.

Lemma Some_shape_keys x m m' :
  x = Some (shape m) -> x = Some (shape m') -> keys m = keys m'.
Proof. intros -> H. inversion H. now apply shape_keys. Qed.

(** C7: two runs of [deployDao] on the same descriptor table and options,
    from any two states of the chain, that both complete return aggregates
    of the same structure: the same keys, in the same order, in the adapters,
    extensions, utility, test and factories maps, and the same voting helpers
    present.  The deploy primitive is taken to embed a descriptor that
    depends on the deployed contract alone, and no descriptor to be named
    after a key that [deployDao] adds to the options. *)
Theorem deployDao_same_structure (tag : value -> option config)
    (options0 : options) (s1 s2 : state) (r1 r2 : result) (s1' s2' : state) :
  tagging tag -> unreserved options0 ->
  deployDao options0 s1 = (Ok r1, s1') ->
  deployDao options0 s2 = (Ok r2, s2') ->
  structure r1 = structure r2.
Proof.
  intros Htag Hu H1 H2.
  apply (deployDao_shapes tag _ _ _ _ Htag Hu) in H1
    as (f1 & a1 & df1 & Hf1 & He1 & Ha1 & Hu1 & Ht1 & Hv1 & Hra1 & Hrf1).
  apply (deployDao_shapes tag _ _ _ _ Htag Hu) in H2
    as (f2 & a2 & df2 & Hf2 & He2 & Ha2 & Hu2 & Ht2 & Hv2 & Hra2 & Hrf2).
  assert (Hf : shape f1 = shape f2) by congruence.
  rewrite Hf in He1.
  assert (Hke : keys (r_extensions r1) = keys (r_extensions r2))
    by (eapply Some_shape_keys; eauto).
  assert (Hku : keys (r_utilContracts r1) = keys (r_utilContracts r2))
    by (eapply Some_shape_keys; eauto).
  assert (Hkt : keys (r_testContracts r1) = keys (r_testContracts r2))
    by (eapply Some_shape_keys; eauto).
  assert (Hka : keys a1 = keys a2) by (eapply Some_shape_keys; eauto).
  assert (Hkf : keys (r_factories r1) = keys (r_factories r2)).
  { rewrite Hrf1, Hrf2. unfold withDaoFactory. apply keys_set_congr.
    rewrite !keys_omap. now apply shape_keys. }
  unfold structure. rewrite Hke, Hku, Hkt, Hkf, Hra1, Hra2.
  destruct (truthy (opt_get options0 "offchainVoting")).
  - destruct Hv1 as (sp1 & hb1 & v1 & -> & Hc1).
    destruct Hv2 as (sp2 & hb2 & v2 & -> & Hc2).
    unfold withOffchainVoting. simpl.
    assert (Hc : d_configs v1 = d_configs v2) by congruence.
    rewrite Hc. now rewrite (keys_set_congr _ v1 v2 a1 a2 Hka).
  - rewrite Hv1, Hv2. unfold withOffchainVoting. simpl. now rewrite Hka.
Qed.

End Structure.

(** ** The keys of the result maps *)

Section Collect.
Context {X : Type}.
Variable g : X -> option config.

Lemma values_set {A} k (v : A) (o : obj A) v' :
  In v' (values (obj_set k v o)) -> v' = v \/ In v' (values o).
Proof.
  unfold obj_set. destruct (String.eqb k "__proto__"); [auto |].
  unfold obj_store. destruct (obj_has k o).
  - induction o as [| [k0 v0] r IH]; simpl; [tauto |].
    destruct (String.eqb k0 k); simpl; intuition.
  - destruct (array_index k) as [n |].
    + induction o as [| [k0 v0] r IH]; simpl; [intuition |].
      destruct (array_index k0) as [m |]; [destruct (m <? n)%N |]; simpl;
        intuition.
    + unfold values. rewrite map_app, in_app_iff. simpl. intuition.
Qed.

Lemma collect_keys l : forall acc m,
  collect g l acc = Some m ->
  forall k, In k (keys m) <->
            In k (keys acc) \/
            exists x c, In x l /\ g x = Some c /\ alias c = k /\
                        k <> "__proto__".
Proof.
  induction l as [| x r IH]; simpl; intros acc m H k.
  - inversion H; subst. split; [auto | intros [? | (? & ? & [] & _)]; auto].
  - destruct (g x) as [c |] eqn:Hg; [| discriminate].
    rewrite (IH _ _ H k), keys_set. split.
    + intros [[[-> Hp] | Hk] | (y & c' & Hy & Hgy & Ha)]; auto.
      * right. exists x, c. auto.
      * right. exists y, c'. auto.
    + intros [Hk | (y & c' & [-> | Hy] & Hgy & Ha & Hp)]; auto.
      * left. left. split; congruence.
      * right. exists y, c'. auto.
Qed.

Lemma collect_defined l : forall acc m,
  collect g l acc = Some m -> forall x, In x l -> exists c, g x = Some c.
Proof.
  induction l as [| x r IH]; simpl; intros acc m H y Hy; [destruct Hy |].
  destruct (g x) as [c |] eqn:Hg; [| discriminate].
  destruct Hy as [<- | Hy]; [eauto | eapply IH; eauto].
Qed.

Lemma collect_values l : forall acc m,
  collect g l acc = Some m ->
  forall c, In c (values m) ->
            In c (values acc) \/ exists x, In x l /\ g x = Some c.
Proof.
  induction l as [| x r IH]; simpl; intros acc m H c Hc.
  - inversion H; subst. auto.
  - destruct (g x) as [c0 |] eqn:Hg; [| discriminate].
    destruct (IH _ _ H c Hc) as [Hv | (y & Hy & Hgy)].
    + apply values_set in Hv as [-> | Hv]; [right; exists x | left]; auto.
    + right. exists y. auto.
Qed.

Lemma collect_NoDup l : forall acc m,
  collect g l acc = Some m -> List.NoDup (keys acc) -> List.NoDup (keys m).
Proof.
  induction l as [| x r IH]; simpl; intros acc m H Hd.
  - inversion H; subst. assumption.
  - destruct (g x) as [c |]; [| discriminate].
    eapply IH; [exact H |]. now apply NoDup_set.
Qed.

End Collect.

Lemma storeAll_collect tag o l : forall acc,
  storeAll tag o l acc =
  collect (fun config => tag (opt_get o (name config))) l acc.
Proof.
  induction l as [| c r IH]; simpl; intros acc; [reflexivity |].
  destruct (tag (opt_get o (name c))); auto.
Qed.

Lemma generateAll_collect o l : forall acc,
  generateAll o l acc = collect (generated o) l acc.
Proof.
  induction l as [| c r IH]; simpl; intros acc; [reflexivity |].
  destruct (generated o c); auto.
Qed.

Section Aliases.
Variable o : options.
Hypothesis Hwired : wired o.

Lemma deployable_auto t c : deployable t o c <-> In c (autoDeployed t o).
Proof.
  unfold deployable, autoDeployed. rewrite !filter_In, negb_true_iff.
  assert (Ht : ContractType_eqb (type c) t = true <-> type c = t).
  { destruct (type c), t; simpl; split; congruence. }
  rewrite Ht. tauto.
Qed.

(** The keys of a map that a deployment phase has built are the aliases of
    the descriptors of the phase, and it holds descriptors of the phase
    only. *)
Lemma stored_aliases t m :
  storeAll (tagOf (contractConfigs o)) o (autoDeployed t o) [] = Some m ->
  (forall k, In k (keys m) <->
             exists c, deployable t o c /\ alias c = k /\ k <> "__proto__") /\
  (forall c, In c (values m) -> deployable t o c) /\
  List.NoDup (keys m).
Proof.
  rewrite storeAll_collect. intros H. split; [| split].
  - intros k. rewrite (collect_keys _ _ _ _ H k). simpl. split.
    + intros [[] | (c & c' & Hc & Hg & Ha & Hp)]. exists c.
      assert (Hd : deployable t o c) by now apply deployable_auto.
      split; [assumption |]. split; [| assumption].
      rewrite <- (Hwired c c' (proj1 Hd) Hg). assumption.
    + intros (c & Hd & Ha & Hp). right.
      assert (Hc : In c (autoDeployed t o)) by now apply deployable_auto.
      destruct (collect_defined _ _ _ _ H c Hc) as (c' & Hg).
      exists c, c'. repeat split; try assumption.
      rewrite (Hwired c c' (proj1 Hd) Hg). assumption.
  - intros c Hc. apply (collect_values _ _ _ _ H) in Hc
      as [[] | (x & Hx & Hg)].
    apply deployable_auto in Hx.
    rewrite (Hwired x c (proj1 Hx) Hg). assumption.
  - apply (collect_NoDup _ _ _ _ H). constructor.
Qed.

Lemma generated_link fc c :
  generated o fc = Some c -> findById o (generatesExtensionId fc) = Some c.
Proof.
  unfold generated.
  destruct (findById o (generatesExtensionId fc)) as [ec |] eqn:Hf;
    [| discriminate].
  intros Hg. f_equal. symmetry. eapply Hwired; [| exact Hg].
  eapply findById_In, Hf.
Qed.

(** The keys of the extensions map are aliases of descriptors that the
    factories of the factories map generate. *)
Lemma generated_aliases l m :
  generateAll o l [] = Some m ->
  (forall k, In k (keys m) <->
             exists fc ec, In fc l /\
               findById o (generatesExtensionId fc) = Some ec /\
               alias ec = k /\ k <> "__proto__") /\
  List.NoDup (keys m).
Proof.
  rewrite generateAll_collect. intros H. split.
  - intros k. rewrite (collect_keys _ _ _ _ H k). simpl. split.
    + intros [[] | (fc & c & Hfc & Hg & Ha & Hp)]. exists fc, c.
      repeat split; try assumption. now apply generated_link.
    + intros (fc & ec & Hfc & Hf & Ha & Hp). right.
      destruct (collect_defined _ _ _ _ H fc Hfc) as (c & Hg).
      exists fc, c. repeat split; try assumption.
      apply generated_link in Hg. congruence.
  - apply (collect_NoDup _ _ _ _ H). constructor.
Qed.

End Aliases.

Section Aggregate.
Context {E : Env}.

Lemma keys_withDaoFactory factories daoFactory k :
  In k (keys (withDaoFactory factories daoFactory)) <->
  k = "daoFactory" \/ In k (keys factories).
Proof.
  unfold withDaoFactory. rewrite keys_set, keys_omap.
  split; [tauto | intros [-> | H]; [left; split; [reflexivity | discriminate] | tauto]].
Qed.

Lemma keys_withOffchainVoting vh adapters k :
  In k (keys (withOffchainVoting vh adapters)) <->
  In k (keys adapters) \/
  exists v, offchainVoting vh = Some v /\ alias (d_configs v) = k /\
            k <> "__proto__".
Proof.
  unfold withOffchainVoting. destruct (offchainVoting vh) as [v |].
  - rewrite keys_set. split.
    + intros [[-> Hp] | H]; [right; eauto | now left].
    + intros [H | (v' & Hv & <- & Hp)]; [now right | left].
      inversion Hv; subst. now split.
  - split; [now left | intros [H | (v & Hv & _)]; [assumption | discriminate]].
Qed.

Lemma NoDup_shape m : List.NoDup (keys (shape m)) -> List.NoDup (keys m).
Proof. unfold shape. now rewrite keys_omap. Qed.

(** C1 (amended): when [deployDao] completes, with a deploy primitive that
    embeds the descriptor listed under the name of the deployed contract and
    a table in which the contract registered under a descriptor's name
    carries this descriptor, every result map holds each key once and its
    keys are aliases, an alias ["__proto__"] giving no key: the factories map
    holds "daoFactory" and the aliases of the enabled, non-skipped Factory
    descriptors; every key of the extensions map is the alias of the
    descriptor that a factory of the factories map generates, and the alias
    of every enabled, non-skipped Extension descriptor that a factory of the
    factories map generates is a key of it; the adapters map holds the
    aliases of the enabled, non-skipped Adapter descriptors and the alias of
    the off-chain voting contract when it was installed; the utility map
    holds the aliases of the enabled, non-skipped Util descriptors; the test
    map holds the aliases of the enabled, non-skipped Test descriptors when
    [deployTestTokens] is set and nothing otherwise. *)
Theorem deployDao_aggregate (options0 : options) (s : state) (r : result)
    (s' : state) :
  tagging (tagOf (contractConfigs options0)) ->
  wired options0 -> unreserved options0 ->
  deployDao options0 s = (Ok r, s') ->
  exists factories daoFactory,
    r_factories r = withDaoFactory factories daoFactory /\
    (forall f, In f (values factories) ->
               deployable Factory options0 (d_configs f)) /\
    (forall k, In k (keys (r_factories r)) <->
               k = "daoFactory" \/
               exists c, deployable Factory options0 c /\ alias c = k /\
                         k <> "__proto__") /\
    (forall k, In k (keys (r_extensions r)) ->
               exists f ec,
                 In f (values factories) /\
                 findById options0 (generatesExtensionId (d_configs f))
                 = Some ec /\
                 alias ec = k) /\
    (forall f ec,
       In f (values factories) ->
       findById options0 (generatesExtensionId (d_configs f)) = Some ec ->
       deployable Extension options0 ec ->
       alias ec <> "__proto__" ->
       In (alias ec) (keys (r_extensions r))) /\
    (forall k, In k (keys (r_adapters r)) <->
               (exists c, deployable Adapter options0 c /\ alias c = k /\
                          k <> "__proto__") \/
               exists v, offchainVoting (r_votingHelpers r) = Some v /\
                         alias (d_configs v) = k /\ k <> "__proto__") /\
    (forall k, In k (keys (r_utilContracts r)) <->
               exists c, deployable Util options0 c /\ alias c = k /\
                         k <> "__proto__") /\
    (forall k, In k (keys (r_testContracts r)) <->
               truthy (opt_get options0 "deployTestTokens") = true /\
               exists c, deployable Test options0 c /\ alias c = k /\
                         k <> "__proto__") /\
    List.NoDup (keys (r_factories r)) /\
    List.NoDup (keys (r_extensions r)) /\
    List.NoDup (keys (r_adapters r)) /\
    List.NoDup (keys (r_utilContracts r)) /\
    List.NoDup (keys (r_testContracts r)).
Proof.
  intros Htag Hw Hu H.
  apply (deployDao_shapes _ _ _ _ _ Htag Hu) in H
    as (factories & adapters & daoFactory & Hf & He & Ha & Hut & Ht & Hv
        & Hra & Hrf).
  apply (stored_aliases _ Hw) in Hf as (Hfk & Hfv & Hfd).
  apply (generated_aliases _ Hw) in He as (Hek & Hed).
  apply (stored_aliases _ Hw) in Ha as (Hak & _ & Had).
  apply (stored_aliases _ Hw) in Hut as (Huk & _ & Hud).
  unfold shape in *. rewrite keys_omap in *.
  exists factories, daoFactory. split; [assumption |].
  split; [| split; [| split; [| split; [| split; [| split; [| split]]]]]].
  - intros f Hin. apply Hfv. rewrite values_omap. now apply in_map.
  - intros k. rewrite Hrf, keys_withDaoFactory, Hfk. reflexivity.
  - intros k Hk. apply Hek in Hk as (fc & ec & Hfc & Hl & Hal & _).
    rewrite values_omap in Hfc.
    apply in_map_iff in Hfc as (f & <- & Hin). exists f, ec. auto.
  - intros f ec Hin Hl _ Hp. apply Hek. exists (d_configs f), ec.
    rewrite values_omap. split; [now apply in_map | auto].
  - intros k. rewrite Hra, keys_withOffchainVoting, Hak. reflexivity.
  - assumption.
  - intros k. destruct (truthy (opt_get options0 "deployTestTokens")).
    + apply (stored_aliases _ Hw) in Ht as (Htk & _ & _).
      rewrite keys_omap in Htk. rewrite Htk. intuition.
    + inversion Ht as [Hnil]. symmetry in Hnil.
      apply map_eq_nil in Hnil. rewrite Hnil. simpl.
      split; [tauto | intros [Hfalse _]; discriminate].
  - repeat split; try assumption.
    + rewrite Hrf. unfold withDaoFactory. apply NoDup_set.
      now rewrite keys_omap.
    + rewrite Hra. unfold withOffchainVoting.
      destruct (offchainVoting (r_votingHelpers r));
        [now apply NoDup_set | assumption].
    + destruct (truthy (opt_get options0 "deployTestTokens")).
      * apply (stored_aliases _ Hw) in Ht as (_ & _ & Htd).
        now rewrite keys_omap in Htd.
      * inversion Ht as [Hnil]. symmetry in Hnil.
        apply map_eq_nil in Hnil. rewrite Hnil. constructor.
Qed.

(** The off-chain voting contract of a completed run is assigned to the
    adapters map under its own alias, on top of what [createAdapters] had
    built. *)
Lemma offchainVoting_stored options0 s r s' v :
  deployDao options0 s = (Ok r, s') ->
  offchainVoting (r_votingHelpers r) = Some v ->
  exists o adapters s1 s2,
    createAdapters o s1 = (Ok adapters, s2) /\
    r_adapters r = obj_set (alias (d_configs v)) v adapters /\
    (alias (d_configs v) <> "__proto__" ->
     obj_get (alias (d_configs v)) (r_adapters r) = Some v /\
     length (r_adapters r) =
     if obj_has (alias (d_configs v)) adapters then length adapters
     else S (length adapters)).
Proof.
  intros H Hv. apply deployDao_Ok in H
    as (dao & daoFactory & factories & extensions & adapters & votingHelpers
        & utilContracts & testContracts & s0 & s1 & s2 & s3 & s4 & s5 & s6
        & s7 & H0 & H1 & H2 & H3 & H4 & H5 & H6 & H7 & H8 & ->).
  simpl in *. unfold withOffchainVoting. rewrite Hv.
  exists (deployOptions options0 (address dao)), adapters, s2, s3.
  split; [assumption |]. split; [reflexivity |]. intros Hp.
  split; [now apply get_set |].
  rewrite length_set. apply String.eqb_neq in Hp. now rewrite Hp.
Qed.

End Aggregate.

(** ** Runs on the table-driven chain client *)

Lemma tableEnv_tagging (table : list config) :
  @tagging (tableEnv table) (tagOf table).
Proof.
  intros contract args from ch h ch' H. simpl in H. inversion H; subst.
  destruct contract; reflexivity.
Qed.

Lemma smallOptions_unreserved : unreserved smallOptions.
Proof.
  intros c Hc. simpl in Hc.
  repeat (destruct Hc as [<- | Hc];
          [vm_compute; intuition discriminate |]).
  destruct Hc.
Qed.

Lemma smallOptions_wired : wired smallOptions.
Proof.
  intros c t Hc. simpl in Hc.
  repeat (destruct Hc as [<- | Hc];
          [vm_compute; intros Ht; inversion Ht; reflexivity |]).
  destruct Hc.
Qed.

(** C10 (amended): whenever a completed run of [deployDao] has installed the
    off-chain voting contract, this contract has been assigned to the
    adapters map under its own alias, on top of the map that [createAdapters]
    had built: for any alias but "__proto__" the returned map holds it under
    this alias, an adapter already under this alias is replaced and a new
    alias adds an entry.  In the first run below the entry
    under the alias of the enabled, non-skipped adapter VotingContract is the
    off-chain voting contract, whose descriptor is not auto-deployed; in the
    second the map has more entries than there are enabled, non-skipped
    Adapter descriptors; in the third the map holds a contract whose
    descriptor is of the Util category. *)
Theorem offchainVoting_in_adapters :
  (forall (E : Env) options0 s r s' v,
     deployDao options0 s = (Ok r, s') ->
     offchainVoting (r_votingHelpers r) = Some v ->
     exists o adapters s1 s2,
       createAdapters o s1 = (Ok adapters, s2) /\
       r_adapters r = obj_set (alias (d_configs v)) v adapters /\
       (alias (d_configs v) <> "__proto__" ->
        obj_get (alias (d_configs v)) (r_adapters r) = Some v /\
        length (r_adapters r) =
        if obj_has (alias (d_configs v)) adapters then length adapters
        else S (length adapters))) /\
  (exists r s' v c,
     @deployDao (tableEnv (votingTable "voting")) (votingOptions "voting")
       (fresh (votingTable "voting")) = (Ok r, s') /\
     deployable Adapter (votingOptions "voting") c /\ alias c = "voting" /\
     obj_get "voting" (r_adapters r) = Some v /\
     name (d_configs v) = "OffchainVotingContract" /\
     skipAutoDeploy (d_configs v) = true /\
     name c = "VotingContract") /\
  (exists r s',
     @deployDao (tableEnv (votingTable "offchainVoting"))
       (votingOptions "offchainVoting")
       (fresh (votingTable "offchainVoting")) = (Ok r, s') /\
     length (r_adapters r) = 2%nat /\
     length (autoDeployed Adapter (votingOptions "offchainVoting")) = 1%nat) /\
  (exists r s' v,
     @deployDao (tableEnv (typedVotingTable Util)) (typedVotingOptions Util)
       (fresh (typedVotingTable Util)) = (Ok r, s') /\
     obj_get "offchainVoting" (r_adapters r) = Some v /\
     In (d_configs v) (contractConfigs (typedVotingOptions Util)) /\
     name (d_configs v) = "OffchainVotingContract" /\
     type (d_configs v) = Util).
Proof.
  split; [| split; [| split]].
  - intros E options0 s r s' v. apply offchainVoting_stored.
  - do 3 eexists.
    exists (descriptor "voting" "VotingContract" "voting" Adapter
              true false None None).
    split; [vm_compute; reflexivity |].
    split; [| repeat split].
    unfold deployable. simpl. tauto.
  - do 2 eexists. split; [vm_compute; reflexivity |]. split; reflexivity.
  - do 3 eexists. split; [vm_compute; reflexivity |].
    split; [reflexivity |]. split; [| split; reflexivity].
    simpl. tauto.
Qed.

Lemma offchainVoting_in_adapters_witness :
  exists r s' v,
    @deployDao (tableEnv (votingTable "voting")) (votingOptions "voting")
      (fresh (votingTable "voting")) = (Ok r, s') /\
    offchainVoting (r_votingHelpers r) = Some v /\
    alias (d_configs v) <> "__proto__" /\
    obj_get (alias (d_configs v)) (r_adapters r) = Some v.
Proof.
  do 3 eexists. split; [vm_compute; reflexivity |].
  split; [reflexivity |].
  destruct (proj1 offchainVoting_in_adapters
              (tableEnv (votingTable "voting")) (votingOptions "voting")
              (fresh (votingTable "voting")) _ _ _
              ltac:(vm_compute; reflexivity) eq_refl)
    as (o & adapters & s1 & s2 & _ & _ & H).
  assert (Hp : "voting" <> "__proto__") by discriminate.
  split; [exact Hp |]. exact (proj1 (H Hp)).
Defined.

(** The claim C10 as it is written fails for the alias "__proto__": the run
    completes and installs the off-chain voting contract, and the adapters
    map of the result has neither this alias among its keys nor this contract
    among its values. *)
Lemma offchainVoting_without_entry :
  exists r s' v,
    @deployDao (tableEnv (votingTable "__proto__")) (votingOptions "__proto__")
      (fresh (votingTable "__proto__")) = (Ok r, s') /\
    offchainVoting (r_votingHelpers r) = Some v /\
    alias (d_configs v) = "__proto__" /\
    ~ In (alias (d_configs v)) (keys (r_adapters r)) /\
    ~ In v (values (r_adapters r)) /\
    keys (r_adapters r) = ["voting"].
Proof.
  do 3 eexists. split; [vm_compute; reflexivity |].
  split; [reflexivity |]. split; [reflexivity |].
  split; [| split; [| reflexivity]].
  - simpl. intros [H | []]. discriminate H.
  - simpl. intros [H | []]. discriminate H.
Qed.

(** The claim C1 as it is written fails on the small table: the run
    completes, the descriptor of TestToken1 is an enabled, non-skipped Test
    descriptor, and no map of the result has an entry under its alias. *)
Lemma test_descriptor_without_entry :
  exists r s' c,
    @deployDao (tableEnv smallTable) smallOptions (fresh smallTable)
    = (Ok r, s') /\
    deployable Test smallOptions c /\
    ~ In (alias c)
        (keys (r_adapters r) ++ keys (r_extensions r) ++
         keys (r_utilContracts r) ++ keys (r_testContracts r) ++
         keys (r_factories r))%list.
Proof.
  do 2 eexists.
  exists (descriptor "test-token" "TestToken1" "testToken1" Test
            true false None None).
  split; [vm_compute; reflexivity |]. split.
  - unfold deployable. simpl. tauto.
  - simpl. intuition discriminate.
Qed.

Lemma deployDao_aggregate_witness :
  exists r,
    fst (@deployDao (tableEnv smallTable) smallOptions (fresh smallTable))
    = Ok r /\
    forall k, In k (keys (r_utilContracts r)) <->
              exists c, deployable Util smallOptions c /\ alias c = k /\
                        k <> "__proto__".
Proof.
  eexists. split; [vm_compute; reflexivity |].
  destruct (@deployDao_aggregate (tableEnv smallTable) smallOptions
              (fresh smallTable) _ _
              (tableEnv_tagging smallTable) smallOptions_wired
              smallOptions_unreserved
              ltac:(vm_compute; reflexivity))
    as (factories & daoFactory & _ & _ & _ & _ & _ & _ & Hutil & _).
  exact Hutil.
Defined.

(** The claim C4 as it is written fails on the small table: the run
    completes and its trace has a deployment call, that of the utility
    contract, after the access-configuration calls. *)
Lemma deployment_after_access :
  ~ (forall (E : Env) options0 s r s',
       deployDao options0 s = (Ok r, s') ->
       deployAfterAccess (trace s') = false).
Proof.
  intros H.
  assert (Hrun : exists r s',
             @deployDao (tableEnv smallTable) smallOptions (fresh smallTable)
             = (Ok r, s') /\ deployAfterAccess (trace s') = true).
  { do 2 eexists. split; vm_compute; reflexivity. }
  destruct Hrun as (r & s' & Hrun & Hafter).
  apply H in Hrun. congruence.
Qed.

Lemma configureDao_after_adapters_witness :
  exists r s',
    @deployDao (tableEnv smallTable) smallOptions (fresh smallTable)
    = (Ok r, s') /\
    exists adapters, r_adapters r = withOffchainVoting (r_votingHelpers r) adapters.
Proof.
  do 2 eexists. split; [vm_compute; reflexivity |].
  destruct (@configureDao_after_adapters (tableEnv smallTable) smallOptions
              (fresh smallTable) _ _ ltac:(vm_compute; reflexivity))
    as (dao & daoFactory & factories & adapters & o & s1 & s2 & s3 & s4 & _
        & _ & _ & _ & s5 & s6 & s7 & s8 & _ & _ & _ & _ & _ & Ha & _).
  exists adapters. exact Ha.
Defined.

Lemma deployContract_contract_witness :
  @deployContract (tableEnv smallTable) unregistered smallOptions
    (fresh smallTable)
  = (Err (Error "Contract OnboardingContract not found in environment options"),
     fresh smallTable).
Proof.
  apply (proj1 (@deployContract_contract (tableEnv smallTable) unregistered
                  smallOptions (fresh smallTable))).
  vm_compute. reflexivity.
Defined.

Lemma deployContract_falsy_witness :
  @deployContract (tableEnv [falsyArguments]) falsyArguments falsyOptions
    (fresh _)
  = @invoke (tableEnv [falsyArguments]) _
      (DeployFunction (art "Multicall")
         (Some [VNum 0; VBool false; VStr ""]) VUndefined) (fresh _).
Proof.
  apply (proj1 (proj1 (@deployContract_falsy (tableEnv [falsyArguments])
                         falsyArguments falsyOptions (fresh _))
                  ["zero"; "no"; "empty"] eq_refl eq_refl
                  ltac:(discriminate))).
  intros argName Hin. simpl in Hin.
  repeat (destruct Hin as [<- | Hin];
          [vm_compute; split; discriminate |]).
  destruct Hin.
Defined.

Lemma configureOffchainVoting_disabled_witness :
  @configureOffchainVoting (tableEnv smallTable) smallOptions
    (Handle (VNum 3) None) (Handle (VNum 1) None) [] (fresh smallTable)
  = (Ok noVotingHelpers, fresh smallTable).
Proof.
  apply (@configureOffchainVoting_disabled (tableEnv smallTable)).
  vm_compute. reflexivity.
Defined.


Lemma deployDao_same_structure_witness :
  exists r1 r2,
    fst (@deployDao (tableEnv smallTable) smallOptions (fresh smallTable))
    = Ok r1 /\
    fst (@deployDao (tableEnv smallTable) smallOptions
           (@State (tableEnv smallTable) 40%nat [] [])) = Ok r2 /\
    address (r_dao r1) <> address (r_dao r2) /\
    structure r1 = structure r2.
Proof.
  do 2 eexists. split; [vm_compute; reflexivity |].
  split; [vm_compute; reflexivity |].
  split; [discriminate |].
  apply (@deployDao_same_structure (tableEnv smallTable) (tagOf smallTable)
           smallOptions (fresh smallTable)
           (@State (tableEnv smallTable) 40%nat [] []) _ _
           (snd (@deployDao (tableEnv smallTable) smallOptions
                   (fresh smallTable)))
           (snd (@deployDao (tableEnv smallTable) smallOptions
                   (@State (tableEnv smallTable) 40%nat [] [])))
           (tableEnv_tagging smallTable) smallOptions_unreserved).
  - vm_compute. reflexivity.
  - vm_compute. reflexivity.
Defined.

Lemma getNetworkDetails_exact_witness :
  getNetworkDetails "rinkeby-fork"
  = Some {| net_name := "rinkeby-fork"; chainId := 4 |} /\
  getNetworkDetails "Rinkeby" = None.
Proof.
  split.
  - apply (proj1 getNetworkDetails_exact
             {| net_name := "rinkeby-fork"; chainId := 4 |}).
    simpl. auto.
  - apply (proj1 (proj2 getNetworkDetails_exact) "Rinkeby").
    intros n Hn. simpl in Hn.
    repeat (destruct Hn as [<- | Hn]; [discriminate |]). destruct Hn.
Defined.

(** * Further properties of the script *)

(** ** Call sequences of the deployment phases *)

Section Sequences.
Context {E : Env}.

Lemma resolveArgs_Ok o msg names s vs s' :
  resolveArgs o msg names s = (Ok vs, s') ->
  vs = map (opt_get o) names /\ s' = s /\ forallb (present o) names = true.
Proof.
  intros H.
  destruct (first_missing o names) as [Hall | (pre & x & post & -> & Hp & Hx)].
  - rewrite resolveArgs_all in H by assumption. inversion H. auto.
  - rewrite resolveArgs_missing in H by assumption. discriminate.
Qed.

Lemma deployArgs_declared o config names :
  deploymentArgs config = Some names -> names <> [] ->
  deployArgs o config = Some (map (opt_get o) names).
Proof.
  unfold deployArgs, declaredArgs. intros -> Hne.
  destruct names; [congruence | reflexivity].
Qed.

Lemma deployArgs_none o config :
  deploymentArgs config = None \/ deploymentArgs config = Some [] ->
  deployArgs o config = None.
Proof. unfold deployArgs, declaredArgs. intros [-> | ->]; reflexivity. Qed.

(** A deployment that succeeds is the one call to the deploy primitive, with
    the arguments the descriptor declares. *)
Lemma deployContract_Ok config o s h s' :
  deployContract config o s = (Ok h, s') ->
  invoke (DeployFunction (opt_get o (name config)) (deployArgs o config)
            VUndefined) s = (Ok h, s').
Proof.
  destruct (truthy (opt_get o (name config))) eqn:Hc.
  2:{ rewrite deployContract_absent by assumption. discriminate. }
  destruct (deploymentArgs config) as [[| a l] |] eqn:Hd.
  - rewrite deployContract_noargs, deployArgs_none by auto. auto.
  - destruct (first_missing o (a :: l))
      as [Hall | (pre & x & post & Heq & Hp & Hx)].
    + rewrite (deployContract_resolved _ _ s _ Hc Hd) by (auto; discriminate).
      rewrite (deployArgs_declared o config _ Hd) by discriminate. auto.
    + rewrite Heq in Hd.
      rewrite (deployContract_missing _ _ s _ _ _ Hc Hd Hp Hx). discriminate.
  - rewrite deployContract_noargs, deployArgs_none by auto. auto.
Qed.

Lemma deployBody_trace o config m s m' s' :
  deployBody o config m s = (Ok m', s') ->
  trace s' = (trace s ++ [deployCall o config])%list.
Proof.
  unfold deployBody. intros H.
  apply bind_Ok in H as (h & s1 & Hd & H).
  apply bind_Ok in H as (d & s2 & He & H).
  apply deployContract_Ok, invoke_trace in Hd.
  apply embedded_Ok in He as (-> & _). inversion H; subst. exact Hd.
Qed.

Lemma deploy_loop_trace o l : forall m s m' s',
  loop (deployBody o) l m s = (Ok m', s') ->
  trace s' = (trace s ++ map (deployCall o) l)%list.
Proof.
  induction l as [| c r IH]; simpl; intros m s m' s' H.
  - inversion H. now rewrite app_nil_r.
  - apply bind_Ok in H as (m1 & s1 & H1 & Hr).
    apply deployBody_trace in H1. apply IH in Hr.
    rewrite Hr, H1, <- app_assoc. reflexivity.
Qed.

Lemma deployChain_trace msg o l s m s' :
  deployChain msg o l (ret []) s = (Ok m, s') ->
  trace s' = (trace s ++ map (deployCall o) l)%list.
Proof.
  unfold deployChain. intros H.
  apply (chain_Ok _ (deployBody o)) in H.
  - destruct H as (m0 & s0 & Hret & H). inversion Hret; subst.
    now apply deploy_loop_trace in H.
  - intros p x s1 a s2 Hs. apply logged_Ok in Hs. now apply bind_Ok in Hs.
Qed.

(** X2: a run of [createAdapters], [createUtilContracts] or
    [createTestContracts] that succeeds has issued exactly one call to the
    deploy primitive per enabled, non-skipped descriptor of its category, in
    the order of the table, with the contract registered under the
    descriptor's name and the arguments the descriptor declares (no argument
    list when it declares none); the test phase issues none when
    [deployTestTokens] is unset. *)
Theorem deployment_phases_in_table_order (o : options) (s : state)
    (m : obj deployed) (s' : state) :
  (createAdapters o s = (Ok m, s') ->
   trace s' = (trace s ++ map (deployCall o) (autoDeployed Adapter o))%list) /\
  (createUtilContracts o s = (Ok m, s') ->
   trace s' = (trace s ++ map (deployCall o) (autoDeployed Util o))%list) /\
  (createTestContracts o s = (Ok m, s') ->
   trace s' =
   (trace s ++
    if truthy (opt_get o "deployTestTokens")
    then map (deployCall o) (autoDeployed Test o) else [])%list).
Proof.
  split; [| split].
  - apply deployChain_trace.
  - apply deployChain_trace.
  - unfold createTestContracts.
    destruct (truthy (opt_get o "deployTestTokens")); simpl.
    + apply deployChain_trace.
    + intros H. inversion H. now rewrite app_nil_r.
Qed.

Lemma deployFactory_Ok o config s h s' :
  deployFactory o config s = (Ok h, s') ->
  trace s' = (trace s ++ factoryCalls o [config])%list.
Proof.
  unfold deployFactory, factoryCalls. simpl.
  destruct (truthy (opt_get o (name config))); simpl; [| discriminate].
  destruct (findById o (generatesExtensionId config)) as [ec |]; [| discriminate].
  destruct (truthy (opt_get o (name ec))); simpl; [| discriminate].
  intros H. apply logged_Ok, invoke_trace in H. exact H.
Qed.

Lemma factoryCalls_length o config s h s' :
  deployFactory o config s = (Ok h, s') ->
  length (factoryCalls o [config]) = 1%nat.
Proof.
  unfold deployFactory, factoryCalls. simpl.
  destruct (truthy (opt_get o (name config))); simpl; [| discriminate].
  destruct (findById o (generatesExtensionId config)) as [ec |]; [| discriminate].
  reflexivity.
Qed.

Lemma factory_loop_trace o l : forall m s m' s',
  loop (factoryBody o) l m s = (Ok m', s') ->
  trace s' = (trace s ++ factoryCalls o l)%list /\
  length (factoryCalls o l) = length l.
Proof.
  induction l as [| c r IH]; simpl; intros m s m' s' H.
  - inversion H. now rewrite app_nil_r.
  - apply bind_Ok in H as (m1 & s1 & H1 & Hr). unfold factoryBody in H1.
    apply bind_Ok in H1 as (h & s2 & Hd & H1).
    apply bind_Ok in H1 as (d & s3 & He & H1).
    apply embedded_Ok in He as (-> & _). inversion H1; subst.
    pose proof (factoryCalls_length _ _ _ _ _ Hd) as Hlen.
    apply deployFactory_Ok in Hd. apply IH in Hr as [Hr Hl].
    change (factoryCalls o (c :: r))
      with (factoryCalls o [c] ++ factoryCalls o r)%list in *.
    unfold factoryCalls in *. simpl in *. rewrite app_nil_r in *.
    split.
    + rewrite Hr, Hd, <- app_assoc. reflexivity.
    + rewrite length_app, Hlen, Hl. reflexivity.
Qed.

Lemma deployFactory_resolved o config extensionConfig s r s' :
  findById o (generatesExtensionId config) = Some extensionConfig ->
  truthy (opt_get o (name config)) = true ->
  truthy (opt_get o (name extensionConfig)) = true ->
  deployFactory o config s = (r, s') ->
  trace s' =
  (trace s ++
   [callOf (DeployFunction (opt_get o (name config))
              (Some [opt_get o (name extensionConfig)]) VUndefined)])%list.
Proof.
  unfold deployFactory. intros -> -> ->. simpl.
  unfold logged, catch, bind, console_error, throw.
  destruct (invoke _ s) as [[h | e] s1] eqn:Hi; intros H; inversion H; subst;
    simpl; eapply invoke_trace, Hi.
Qed.

Lemma factoryBody_extends o config factories s r s' :
  factoryBody o config factories s = (r, s') ->
  exists t, trace s' = (trace s ++ t)%list.
Proof.
  assert (Hm : emits (fun _ => True) (factoryBody o config factories)).
  { unfold factoryBody, deployFactory.
    apply emits_bind;
      [| intros h; apply emits_bind;
           [apply emits_embedded | intros d; apply emits_ret]].
    destruct (negb (truthy (opt_get o (name config)))); [apply emits_throw |].
    destruct (findById o (generatesExtensionId config)) as [ec |];
      [| apply emits_throw].
    destruct (negb (truthy (opt_get o (name ec)))); [apply emits_throw |].
    apply emits_logged, emits_invoke. exact I. }
  intros H. destruct (Hm _ _ _ H) as (t & Ht & _). eauto.
Qed.

(** C3: when the [generatesExtensionId] of an enabled, non-skipped Factory
    descriptor matches the id of no descriptor of the table, [createFactories]
    fails, and it stops in the very state the chain reaches on the factories
    that come before this one: either one of them has already failed, or they
    have all been deployed and the failure is the configuration error of this
    factory, raised before any call for it.  When the link resolves, and the
    factories before this one have been deployed, the next call
    [createFactories] issues is the deployment of this factory with the
    resolved extension contract as the single constructor argument; a run
    that succeeds has issued exactly one such deployment for each enabled,
    non-skipped Factory descriptor, in the order of the table; and every call
    [createFactories] issues, whatever its outcome, is such a deployment of
    an auto-deployed factory whose link resolves. *)
Theorem createFactories_link (o : options) :
  (forall config s,
     In config (contractConfigs o) -> type config = Factory ->
     enabled config = true -> skipAutoDeploy config = false ->
     findById o (generatesExtensionId config) = None ->
     exists pre post e s',
       autoDeployed Factory o = (pre ++ config :: post)%list /\
       createFactories o s = (Err e, s') /\
       (factoriesChain o pre (ret []) s = (Err e, s') \/
        exists factories,
          factoriesChain o pre (ret []) s = (Ok factories, s') /\
          (e = missingFactory config \/ e = missingExtensionConfig config))) /\
  (forall config extensionConfig pre post s factories s1 r s',
     autoDeployed Factory o = (pre ++ config :: post)%list ->
     findById o (generatesExtensionId config) = Some extensionConfig ->
     truthy (opt_get o (name config)) = true ->
     truthy (opt_get o (name extensionConfig)) = true ->
     factoriesChain o pre (ret []) s = (Ok factories, s1) ->
     createFactories o s = (r, s') ->
     exists t,
       trace s' =
       (trace s1 ++
        callOf (DeployFunction (opt_get o (name config))
                  (Some [opt_get o (name extensionConfig)]) VUndefined)
        :: t)%list) /\
  (forall s factories s',
     createFactories o s = (Ok factories, s') ->
     trace s' = (trace s ++ factoryCalls o (autoDeployed Factory o))%list /\
     length (factoryCalls o (autoDeployed Factory o))
     = length (autoDeployed Factory o)) /\
  emits (factoryDeployment o) (createFactories o).
Proof.
  split; [| split; [| split; [| apply emits_createFactories]]].
  - intros config s Hin Ht He Hs Hlink.
    assert (Hauto : In config (autoDeployed Factory o))
      by (apply autoDeployed_In; auto).
    apply in_split in Hauto as (pre & post & Heq). exists pre, post.
    unfold createFactories, factoriesChain. rewrite Heq, fold_left_app. simpl.
    fold (factoriesChain o pre (ret [])).
    destruct (factoriesChain o pre (ret []) s) as [[m | e] s1] eqn:Hpre.
    + exists (if truthy (opt_get o (name config))
              then missingExtensionConfig config else missingFactory config), s1.
      split; [reflexivity |]. split.
      * apply chain_failed; [apply factoryStep_failed |].
        unfold factoryStep, factoryBody.
        rewrite (bind_run_Ok _ _ _ _ _ Hpre).
        apply bind_run_Err. now apply deployFactory_unresolved.
      * right. exists m. split; [reflexivity |].
        destruct (truthy (opt_get o (name config))); auto.
    + exists e, s1. split; [reflexivity |]. split; [| now left].
      apply chain_failed; [apply factoryStep_failed |].
      now apply factoryStep_failed.
  - intros config ec pre post s m s1 r s' Heq Hf Hc Hx Hpre H.
    unfold createFactories, factoriesChain in H.
    rewrite Heq, fold_left_app in H. simpl in H.
    apply (chain_extends (factoryStep o)) in H.
    + destruct H as (r0 & s0 & t & Hq & Ht).
      unfold factoryStep in Hq. fold (factoriesChain o pre (ret [])) in Hq.
      rewrite (bind_run_Ok _ _ _ _ _ Hpre) in Hq.
      unfold factoryBody in Hq. unfold bind at 1 in Hq.
      destruct (deployFactory o config s1) as [[h | e] s2] eqn:Hd;
        apply (deployFactory_resolved _ _ _ _ _ _ Hf Hc Hx) in Hd.
      * assert (Hs : s0 = s2).
        { unfold bind, embedded, ret, throw in Hq.
          destruct (configs h); inversion Hq; reflexivity. }
        subst s0. exists t. rewrite Ht, Hd, <- app_assoc. reflexivity.
      * inversion Hq; subst. exists t.
        rewrite Ht, Hd, <- app_assoc. reflexivity.
    + intros p x s2 r2 s3 Hs. unfold factoryStep, bind in Hs.
      destruct (p s2) as [[a | e] s4] eqn:Hp.
      * apply factoryBody_extends in Hs as (t & Ht). eauto.
      * inversion Hs; subst. exists (Err e), s3, []. now rewrite app_nil_r.
  - intros s factories s' H. unfold createFactories, factoriesChain in H.
    apply (chain_Ok _ (factoryBody o)) in H.
    + destruct H as (m0 & s0 & Hret & H). inversion Hret; subst.
      now apply factory_loop_trace in H.
    + intros p x s1 a s2 Hs. now apply bind_Ok in Hs.
Qed.

(** X1: a run of [createFactories] that succeeds has issued exactly one
    call per enabled, non-skipped Factory descriptor, in the order of the
    table: the deployment of the factory contract with the contract of the
    extension it generates as the single argument. *)
Theorem createFactories_in_table_order (o : options) (s : state)
    (factories : obj deployed) (s' : state) :
  createFactories o s = (Ok factories, s') ->
  trace s' = (trace s ++ factoryCalls o (autoDeployed Factory o))%list /\
  length (factoryCalls o (autoDeployed Factory o))
  = length (autoDeployed Factory o).
Proof.
  unfold createFactories, factoriesChain. intros H.
  apply (chain_Ok _ (factoryBody o)) in H.
  - destruct H as (m0 & s0 & Hret & H). inversion Hret; subst.
    now apply factory_loop_trace in H.
  - intros p x s1 a s2 Hs. now apply bind_Ok in Hs.
Qed.

(** A chain whose start has failed logs one line per remaining descriptor
    and rethrows the error, without any call. *)
Lemma deployChain_failed msg o l : forall p s e s1,
  p s = (Err e, s1) ->
  deployChain msg o l p s =
  (Err e, State (chain_state s1) (trace s1)
            (console s1 ++ map (logOf msg e) l)%list).
Proof.
  unfold deployChain.
  induction l as [| c r IH]; simpl; intros p s e s1 H.
  - rewrite app_nil_r. rewrite H. now destruct s1.
  - rewrite (IH _ s e
               (State (chain_state s1) (trace s1)
                  (console s1 ++ [logOf msg e c])%list)).
    + simpl. now rewrite <- app_assoc.
    + unfold deployStep, logged, catch.
      rewrite (bind_run_Err _ _ _ _ _ H). reflexivity.
Qed.

(** X3: [createAdapters] is fail-fast.  When the adapters before [config]
    have been deployed and [deployContract] fails for [config], the phase
    fails with this very error, the chain client is left as the failure left
    it (no call for a later adapter), and the console has one more line for
    [config] and one for each adapter after it. *)
Theorem createAdapters_fail_fast (o : options) (pre post : list config)
    (config : config) (s s1 s2 : state) (adapters : obj deployed) (e : error) :
  autoDeployed Adapter o = (pre ++ config :: post)%list ->
  deployChain adapterMessage o pre (ret []) s = (Ok adapters, s1) ->
  deployContract config o s1 = (Err e, s2) ->
  createAdapters o s =
  (Err e, State (chain_state s2) (trace s2)
            (console s2 ++ map (logOf adapterMessage e) (config :: post))%list).
Proof.
  intros Heq Hpre Hfail. unfold createAdapters.
  change (fun config0 =>
            "Error while creating adapter " +:+ name config0 +:+ ".")
    with adapterMessage.
  rewrite Heq. unfold deployChain. rewrite fold_left_app. simpl.
  fold (deployChain adapterMessage o pre (ret [])).
  fold (deployChain adapterMessage o post
          (deployStep adapterMessage o
             (deployChain adapterMessage o pre (ret [])) config)).
  rewrite (deployChain_failed adapterMessage o post _ s e
             (State (chain_state s2) (trace s2)
                (console s2 ++ [logOf adapterMessage e config])%list)).
  - simpl. now rewrite <- app_assoc.
  - unfold deployStep, logged, catch.
    rewrite (bind_run_Ok _ _ _ _ _ Hpre). unfold deployBody.
    rewrite (bind_run_Err _ _ _ _ _ Hfail). reflexivity.
Qed.

End Sequences.

(** ** The creation of an extension *)

Section CreateExtension.
Context {E : Env}.

(** Resolving no argument at all is calling without arguments. *)
Lemma args_step {A} o msg (k : list value -> M A) (d : option (list string))
    s r s' :
  match d with
  | Some ((_ :: _) as names) => bind (resolveArgs o msg names) k
  | _ => k []
  end s = (r, s') ->
  bind (resolveArgs o msg (default [] d)) k s = (r, s').
Proof. destruct d as [[| a l] |]; simpl; auto. Qed.

Lemma resolved_step {A} o msg (k : list value -> M A) names s r s' :
  bind (resolveArgs o msg names) k s = (r, s') ->
  (forallb (present o) names = true /\ k (map (opt_get o) names) s = (r, s')) \/
  (s' = s /\
   exists pre argName post,
     names = (pre ++ argName :: post)%list /\
     forallb (present o) pre = true /\
     nullish (opt_get o argName) = true /\
     r = Err (Error (msg argName))).
Proof.
  destruct (first_missing o names) as [Hall | (pre & x & post & -> & Hp & Hx)].
  - unfold bind. rewrite resolveArgs_all by assumption. auto.
  - unfold bind. rewrite resolveArgs_missing by assumption.
    intros H. inversion H; subst. right. split; [reflexivity |].
    exists pre, x, post. auto.
Qed.

Lemma default_declared (config : config) :
  default [] (deploymentArgs config) = declaredArgs config.
Proof. unfold declaredArgs. now destruct (deploymentArgs config). Qed.

(** X4: [createExtension] checks the factory's link and the arguments of
    [create] before it calls the chain.  A [generatesExtensionId] that
    matches no descriptor, or a declared argument that is null or undefined
    in the options bag (the first such one is named), makes it fail in the
    state it started from. *)
Theorem createExtension_checks_first (dao : handle) (factory : deployed)
    (o : options) (s : state) :
  (findById o (generatesExtensionId (d_configs factory)) = None ->
   createExtension dao factory o s = (Err (missingLink (d_configs factory)), s))
  /\
  (forall extensionConfigs pre argName post,
     findById o (generatesExtensionId (d_configs factory))
     = Some extensionConfigs ->
     deploymentArgs (d_configs factory) = Some (pre ++ argName :: post)%list ->
     forallb (present o) pre = true ->
     nullish (opt_get o argName) = true ->
     createExtension dao factory o s
     = (Err (missingCreateArgument (d_configs factory) argName), s)).
Proof.
  split.
  - unfold createExtension. now intros ->.
  - intros ec pre x post Hf Hd Hp Hx. unfold createExtension. rewrite Hf, Hd.
    assert (Hargs : forall msg,
               resolveArgs o msg (pre ++ x :: post) s = (Err (Error (msg x)), s))
      by (intros; now apply resolveArgs_missing).
    destruct pre; simpl app; cbv beta iota;
      unfold bind at 1; unfold bind at 1; rewrite Hargs; reflexivity.
Qed.

(** The calls of a creation that succeeds, with what they returned. *)
Lemma createExtension_calls dao factory o s d s' :
  createExtension dao factory o s = (Ok d, s') ->
  exists extensionConfigs a extensionAddress instance s1 s2 s3,
    findById o (generatesExtensionId (d_configs factory))
    = Some extensionConfigs /\
    opt_get o (name extensionConfigs) = VArtifact a /\
    invoke (Create (to_handle factory) (createArgs o (d_configs factory))) s
    = (Ok tt, s1) /\
    invoke (GetExtensionAddress (to_handle factory) (opt_get o "daoAddress")) s1
    = (Ok extensionAddress, s2) /\
    invoke (At a extensionAddress) s2 = (Ok instance, s3) /\
    find (fun c => String.eqb (name c) (contractName a)) (contractConfigs o)
    = Some (d_configs d) /\
    d_address d = address instance /\
    invoke (AddExtension dao (sha3 (id (d_configs d))) (d_address d)
              (opt_get o "owner") (opt_get o "owner")) s3 = (Ok tt, s').
Proof.
  unfold createExtension.
  destruct (findById o (generatesExtensionId (d_configs factory)))
    as [ec |]; [| discriminate].
  intros H. apply bind_Ok in H as ([] & s1 & Hc & H).
  apply (args_step o _ (fun args => invoke (Create (to_handle factory) args)))
    in Hc.
  apply resolved_step in Hc
    as [[_ Hc] | (_ & pre & x & post & _ & _ & _ & Hc)]; [| discriminate].
  rewrite default_declared in Hc.
  apply bind_Ok in H as (addr & s2 & Hq & H).
  destruct (opt_get o (name ec)) as [| | b | n | str | a | ref | ref] eqn:Ha;
    simpl in H; try discriminate;
    try (destruct b; discriminate);
    try (destruct (negb (n =? 0)%Z); discriminate);
    try (destruct (negb (String.eqb str "")); discriminate).
  apply bind_Ok in H as (inst & s3 & Hat & H). simpl in H.
  destruct (find _ (contractConfigs o)) as [c |] eqn:Hfind; [| discriminate].
  apply bind_Ok in H as ([] & s4 & Hadd & H). inversion H; subst.
  exists ec, a, addr, inst, s1, s2, s3. simpl. repeat split; assumption.
Qed.

Lemma createExtension_trace dao factory o s d s' :
  createExtension dao factory o s = (Ok d, s') ->
  exists a extensionAddress,
    trace s' =
    (trace s ++
     [ createCall o factory; queryCall o factory;
       callOf (At a extensionAddress);
       callOf (AddExtension dao (sha3 (id (d_configs d))) (d_address d)
                 (opt_get o "owner") (opt_get o "owner")) ])%list.
Proof.
  intros H. apply createExtension_calls in H
    as (ec & a & addr & inst & s1 & s2 & s3 & _ & _ & H1 & H2 & H3 & _ & _ & H4).
  exists a, addr.
  apply invoke_trace in H1, H2, H3, H4.
  rewrite H4, H3, H2, H1, <- !app_assoc. reflexivity.
Qed.

(** X6: a creation that succeeds follows the invoke-then-query protocol:
    [factory.create] with the declared arguments, [getExtensionAddress] for
    the DAO of the options, [at] on the registered extension contract at the
    address the factory reported, and [addExtension] on the DAO under the
    hash of the id of the descriptor that the table lists under the contract's
    name, with the address of the instance, on behalf of the owner. *)
Theorem createExtension_protocol (dao : handle) (factory : deployed)
    (o : options) (s : state) (d : deployed) (s' : state) :
  createExtension dao factory o s = (Ok d, s') ->
  exists extensionConfigs a extensionAddress instance s1 s2 s3,
    findById o (generatesExtensionId (d_configs factory))
    = Some extensionConfigs /\
    opt_get o (name extensionConfigs) = VArtifact a /\
    invoke (Create (to_handle factory) (createArgs o (d_configs factory))) s
    = (Ok tt, s1) /\
    invoke (GetExtensionAddress (to_handle factory) (opt_get o "daoAddress")) s1
    = (Ok extensionAddress, s2) /\
    invoke (At a extensionAddress) s2 = (Ok instance, s3) /\
    find (fun c => String.eqb (name c) (contractName a)) (contractConfigs o)
    = Some (d_configs d) /\
    d_address d = address instance /\
    invoke (AddExtension dao (sha3 (id (d_configs d))) (d_address d)
              (opt_get o "owner") (opt_get o "owner")) s3 = (Ok tt, s') /\
    trace s' =
    (trace s ++
     [ createCall o factory; queryCall o factory;
       callOf (At a extensionAddress);
       callOf (AddExtension dao (sha3 (id (d_configs d))) (d_address d)
                 (opt_get o "owner") (opt_get o "owner")) ])%list.
Proof.
  intros H. destruct (createExtension_calls _ _ _ _ _ _ H)
    as (ec & a & addr & inst & s1 & s2 & s3 & Hf & Ha & H1 & H2 & H3 & Hc & Hd
        & H4).
  exists ec, a, addr, inst, s1, s2, s3. repeat split; try assumption.
  apply invoke_trace in H1, H2, H3, H4.
  rewrite H4, H3, H2, H1, <- !app_assoc. reflexivity.
Qed.

(** X5: the extension contract is looked up in the options bag only after
    the factory has been called.  When the link resolves to a descriptor
    whose contract the bag does not hold, [createExtension] fails: in the
    state it started from, with the error that names the argument, when a
    declared argument of [create] is null or undefined; otherwise, unless the
    chain client rejected a call, with the error that names the extension,
    after [create] and [getExtensionAddress] have both been issued. *)
Theorem createExtension_late_lookup (dao : handle) (factory : deployed)
    (o : options) (extensionConfigs : config) (s : state)
    (r : res deployed) (s' : state) :
  findById o (generatesExtensionId (d_configs factory))
  = Some extensionConfigs ->
  truthy (opt_get o (name extensionConfigs)) = false ->
  createExtension dao factory o s = (r, s') ->
  exists e,
    r = Err e /\
    ((exists argName,
        In argName (declaredArgs (d_configs factory)) /\
        nullish (opt_get o argName) = true /\
        e = missingCreateArgument (d_configs factory) argName /\
        s' = s) \/
     forallb (present o) (declaredArgs (d_configs factory)) = true /\
     (e = Rejected \/
      e = extensionNotFound extensionConfigs /\
      trace s' = (trace s ++ [createCall o factory; queryCall o factory])%list)).
Proof.
  intros Hf Hc. unfold createExtension. rewrite Hf. intros H.
  unfold bind at 1 in H.
  match type of H with
  | context [match ?m s with _ => _ end] => destruct (m s) as [[u | e] s1] eqn:H1
  end.
  - apply (args_step o _
             (fun args => invoke (Create (to_handle factory) args))) in H1.
    apply resolved_step in H1
      as [[Hall H1] | (_ & pre & x & post & _ & _ & _ & H1)]; [| discriminate].
    rewrite default_declared in H1, Hall.
    unfold bind at 1 in H.
    destruct (invoke (GetExtensionAddress (to_handle factory)
                        (opt_get o "daoAddress")) s1)
      as [[addr | e] s2] eqn:H2.
    + rewrite Hc in H. simpl in H. inversion H; subst.
      exists (extensionNotFound extensionConfigs).
      split; [reflexivity | right]. split; [assumption | right].
      split; [reflexivity |].
      apply invoke_trace in H1, H2. rewrite H2, H1, <- app_assoc. reflexivity.
    + inversion H; subst. exists e. split; [reflexivity | right].
      split; [assumption | left]. now apply invoke_Err in H2.
  - inversion H; subst. exists e. split; [reflexivity |].
    apply (args_step o _
             (fun args => invoke (Create (to_handle factory) args))) in H1.
    apply resolved_step in H1
      as [[Hall H1] | (Hs & pre & x & post & Hd & Hp & Hx & H1)].
    + right. rewrite default_declared in Hall. split; [assumption | left].
      now apply invoke_Err in H1.
    + left. rewrite default_declared in Hd. exists x.
      split; [rewrite Hd; apply in_elt |].
      split; [assumption |]. split; [| assumption].
      inversion H1. reflexivity.
Qed.

Lemma extensions_loop_trace dao o l : forall m s m' s',
  loop (extensionBody dao o) l m s = (Ok m', s') ->
  exists t, trace s' = (trace s ++ t)%list /\
            length t = (4 * length l)%nat /\
            (length m' <= length m + length l)%nat.
Proof.
  induction l as [| f r IH]; simpl; intros m s m' s' H.
  - inversion H; subst. exists []. rewrite app_nil_r. repeat split; lia.
  - apply bind_Ok in H as (m1 & s1 & H1 & Hr). unfold extensionBody in H1.
    apply bind_Ok in H1 as (d & s2 & Hd & H1). inversion H1; subst.
    apply createExtension_trace in Hd as (a & addr & Hd).
    apply IH in Hr as (t & Ht & Hlen & Hm).
    eexists. split; [rewrite Ht, Hd, <- app_assoc; reflexivity |].
    rewrite length_app, Hlen. simpl.
    pose proof (length_set_le (alias (d_configs d)) d m).
    split; lia.
Qed.

(** X7: a run of [createExtensions] that succeeds has issued four calls for
    each factory of the factories map, and returns at most as many
    extensions as there are factories. *)
Theorem createExtensions_per_factory (dao : handle) (factories : obj deployed)
    (o : options) (s : state) (extensions : obj deployed) (s' : state) :
  createExtensions dao factories o s = (Ok extensions, s') ->
  exists t, trace s' = (trace s ++ t)%list /\
            length t = (4 * length factories)%nat /\
            (length extensions <= length factories)%nat.
Proof.
  unfold createExtensions, extensionsChain. intros H.
  apply (chain_Ok _ (extensionBody dao o)) in H.
  - destruct H as (m0 & s0 & Hret & H). inversion Hret; subst.
    apply extensions_loop_trace in H as (t & Ht & Hlen & Hm).
    unfold values in *. rewrite length_map in *. simpl in Hm.
    exists t. auto.
  - intros p x s1 a s2 Hs. apply logged_Ok in Hs. now apply bind_Ok in Hs.
Qed.

End CreateExtension.

(** ** The run as a whole *)

Lemma opt_get_daoAddress {E : Env} o a :
  opt_get (deployOptions o a) "daoAddress" = a.
Proof.
  unfold deployOptions. rewrite !opt_get_set_ne by discriminate.
  unfold opt_get, opt_set. simpl. now rewrite lookup_insert_eq.
Qed.

Lemma emits_readConfigValues {E : Env} (P : call -> Prop) extensions o
    configEntry contractName :
  emits P (readConfigValues extensions o configEntry contractName).
Proof.
  intros s r s' H. apply readConfigValues_run in H as [-> _].
  exists []. now rewrite app_nil_r.
Qed.

Ltac emits_call :=
  first [ reflexivity | exact I | (simpl; trivial; fail)
        | (simpl; apply opt_get_daoAddress) ].

Ltac emits_more :=
  first
    [ progress cbv beta
    | assumption
    | apply emits_ret | apply emits_throw | apply emits_console
    | apply emits_resolveArgs | apply emits_embedded
    | apply emits_readConfigValues
    | apply emits_invoke; emits_call
    | apply emits_logged
    | apply emits_bind; [| intros ?]
    | apply emits_catch; [| intros ?]
    | apply emits_fold; [intros ? _ ? ? |]
    | match goal with
      | |- emits _ (if ?b then _ else _) => destruct b
      | |- emits _ (match ?x with _ => _ end) => destruct x
      end ].

Ltac emits_script :=
  unfold createFactories, factoriesChain, factoryStep, factoryBody,
    deployFactory, createExtensions, extensionsChain, extensionStep,
    extensionBody, createExtension, createAdapters, createUtilContracts,
    createTestContracts, deployChain, deployStep, deployBody, deployContract,
    cloneDao, configureDao, configureAdapters, configureExtensions,
    configureAdaptersWithDAOAccess, configureAdaptersWithDAOParameters,
    parametersStep, configureGroups, configureGroup, adaptersAccessStep,
    extensionsAccessStep, configureExtensionAccess, configureOffchainVoting,
    finalizeDao;
  repeat emits_more.

Section Run.
Context {E : Env}.

Lemma emits_after {A} (P : call -> Prop) base (m : M A) s r s' :
  m s = (r, s') -> emits P m ->
  (exists t0, trace s = (base ++ t0)%list /\ Forall P t0) ->
  exists t, trace s' = (base ++ t)%list /\ Forall P t.
Proof.
  intros H Hm (t0 & Ht0 & HP0). destruct (Hm _ _ _ H) as (t & Ht & HP).
  exists (t0 ++ t)%list. rewrite Ht, Ht0, app_assoc.
  split; [reflexivity | now apply Forall_app].
Qed.

Lemma emits_start (P : call -> Prop) (s : state) :
  exists t0, trace s = (trace s ++ t0)%list /\ Forall P t0.
Proof. exists []. now rewrite app_nil_r. Qed.

Lemma opt_get_DaoRegistry (o : options) :
  opt_get o "DaoRegistry" =
  match DaoRegistry o with
  | Some a => VArtifact a
  | None => VUndefined
  end.
Proof. reflexivity. Qed.

(** The calls of a [cloneDao] that succeeds, with what they returned. *)
Lemma cloneDao_Ok o daoName s dao daoFactory s' :
  cloneDao o daoName s = (Ok (dao, daoFactory), s') ->
  exists registry daoAddress s1 s2 s3,
    opt_get o "DaoRegistry" = VArtifact registry /\
    invoke (DeployFunction (opt_get o "DaoFactory")
              (Some [VArtifact registry]) (opt_get o "owner")) s
    = (Ok daoFactory, s1) /\
    invoke (CreateDao daoFactory daoName (creatorOf o) (opt_get o "owner")) s1
    = (Ok tt, s2) /\
    invoke (GetDaoAddress daoFactory daoName) s2 = (Ok daoAddress, s3) /\
    invoke (At registry daoAddress) s3 = (Ok dao, s') /\
    trace s' =
    (trace s ++ cloneCalls o daoName registry daoFactory daoAddress)%list.
Proof.
  unfold cloneDao. intros H.
  apply bind_Ok in H as (df & s1 & H1 & H).
  apply bind_Ok in H as ([] & s2 & H2 & H).
  apply bind_Ok in H as (addr & s3 & H3 & H).
  rewrite opt_get_DaoRegistry in H1.
  destruct (DaoRegistry o) as [a |] eqn:Hr; [| discriminate].
  apply bind_Ok in H as (d & s4 & H4 & H). inversion H; subst.
  exists a, addr, s1, s2, s3.
  split; [now rewrite opt_get_DaoRegistry, Hr |].
  repeat split; try assumption.
  apply invoke_trace in H1, H2, H3, H4. unfold cloneCalls.
  rewrite H4, H3, H2, H1, <- !app_assoc. reflexivity.
Qed.


(** X9: a run of [deployDao] that completes starts with the four calls of
    [cloneDao], under the name [options.daoName], or "test-dao" when no name
    is given; the DAO of the result is the registry instance at the address
    the factory reported, and the factories map of the result holds the DAO
    factory under the key "daoFactory", whatever the aliases of the
    table. *)
Theorem deployDao_starts_with_clone (options0 : options) (s : state)
    (r : result) (s' : state) :
  deployDao options0 s = (Ok r, s') ->
  exists registry daoFactory daoAddress s0 rest,
    cloneDao options0 (daoNameOf options0) s = (Ok (r_dao r, daoFactory), s0) /\
    trace s' =
    (trace s ++
     cloneCalls options0 (daoNameOf options0) registry daoFactory daoAddress
     ++ rest)%list /\
    obj_get "daoFactory" (r_factories r) = Some daoFactory /\
    daoNameOf options0 =
    (if truthy (opt_get options0 "daoName") then opt_get options0 "daoName"
     else VStr "test-dao").
Proof.
  intros H. apply deployDao_Ok in H
    as (dao & daoFactory & factories & extensions & adapters & votingHelpers
        & utilContracts & testContracts & s0 & s1 & s2 & s3 & s4 & s5 & s6
        & s7 & H0 & H1 & H2 & H3 & H4 & H5 & H6 & H7 & H8 & ->).
  simpl in *.
  pose proof (emits_start (fun _ => True) s0) as A.
  apply (emits_after _ _ _ _ _ _ H1) in A; [| emits_script].
  apply (emits_after _ _ _ _ _ _ H2) in A; [| emits_script].
  apply (emits_after _ _ _ _ _ _ H3) in A; [| emits_script].
  apply (emits_after _ _ _ _ _ _ H4) in A; [| emits_script].
  apply (emits_after _ _ _ _ _ _ H5) in A; [| emits_script].
  apply (emits_after _ _ _ _ _ _ H6) in A; [| emits_script].
  apply (emits_after _ _ _ _ _ _ H7) in A; [| emits_script].
  apply (emits_after _ _ _ _ _ _ H8) in A; [| emits_script].
  destruct A as (rest & Hrest & _).
  destruct (cloneDao_Ok _ _ _ _ _ _ H0)
    as (registry & daoAddress & _ & _ & _ & _ & _ & _ & _ & _ & Ht).
  exists registry, daoFactory, daoAddress, s0, rest.
  split; [assumption |]. split; [| split].
  - rewrite Hrest, Ht, <- app_assoc. reflexivity.
  - unfold withDaoFactory. now apply get_set.
  - reflexivity.
Qed.

End Run.

Section Whole.
Context {E : Env}.

(** X10: a run of [deployDao] that completes finalizes the DAO exactly when
    [options.finalize] is set: the call [finalizeDao] on the DAO of the
    result, on behalf of the owner, is then the last call of the run, and no
    other call of the run is a [finalizeDao]. *)
Theorem deployDao_finalizes_last (options0 : options) (s : state)
    (r : result) (s' : state) :
  deployDao options0 s = (Ok r, s') ->
  exists t,
    Forall (fun c => is_finalize c = false) t /\
    trace s' =
    (trace s ++ t ++
     if truthy (opt_get options0 "finalize")
     then [callOf (FinalizeDao (r_dao r) (opt_get options0 "owner"))]
     else [])%list.
Proof.
  intros H. apply deployDao_Ok in H
    as (dao & daoFactory & factories & extensions & adapters & votingHelpers
        & utilContracts & testContracts & s0 & s1 & s2 & s3 & s4 & s5 & s6
        & s7 & H0 & H1 & H2 & H3 & H4 & H5 & H6 & H7 & H8 & ->).
  simpl in *.
  pose proof (emits_start (fun c => is_finalize c = false) s) as A.
  apply (emits_after _ _ _ _ _ _ H0) in A; [| emits_script].
  apply (emits_after _ _ _ _ _ _ H1) in A; [| emits_script].
  apply (emits_after _ _ _ _ _ _ H2) in A; [| emits_script].
  apply (emits_after _ _ _ _ _ _ H3) in A; [| emits_script].
  apply (emits_after _ _ _ _ _ _ H4) in A; [| emits_script].
  apply (emits_after _ _ _ _ _ _ H5) in A; [| emits_script].
  apply (emits_after _ _ _ _ _ _ H6) in A; [| emits_script].
  apply (emits_after _ _ _ _ _ _ H7) in A; [| emits_script].
  destruct A as (t & Ht & HP). exists t. split; [assumption |].
  unfold finalizeDao in H8.
  rewrite !opt_get_deployOptions in H8
    by (unfold reserved; simpl; intuition discriminate).
  destruct (truthy (opt_get options0 "finalize")).
  - apply invoke_trace in H8. rewrite H8, Ht, <- app_assoc. reflexivity.
  - inversion H8; subst. now rewrite app_nil_r.
Qed.

(** X16: every call of a completed run of [deployDao] that addresses a DAO
    addresses the one that [cloneDao] has created, whatever [daoAddress] the
    caller had put in the options: the queries for the addresses of the
    extensions, the registrations of the extensions, the access grants, the
    installation of the off-chain voting and the finalization. *)
Theorem deployDao_on_cloned_dao (options0 : options) (s : state)
    (r : result) (s' : state) :
  deployDao options0 s = (Ok r, s') ->
  exists t, trace s' = (trace s ++ t)%list /\ Forall (onDao (r_dao r)) t.
Proof.
  intros H. apply deployDao_Ok in H
    as (dao & daoFactory & factories & extensions & adapters & votingHelpers
        & utilContracts & testContracts & s0 & s1 & s2 & s3 & s4 & s5 & s6
        & s7 & H0 & H1 & H2 & H3 & H4 & H5 & H6 & H7 & H8 & ->).
  simpl in *.
  pose proof (emits_start (onDao dao) s) as A.
  apply (emits_after _ _ _ _ _ _ H0) in A; [| emits_script].
  apply (emits_after _ _ _ _ _ _ H1) in A; [| emits_script].
  apply (emits_after _ _ _ _ _ _ H2) in A; [| emits_script].
  apply (emits_after _ _ _ _ _ _ H3) in A; [| emits_script].
  apply (emits_after _ _ _ _ _ _ H4) in A; [| emits_script].
  apply (emits_after _ _ _ _ _ _ H5) in A; [| emits_script].
  apply (emits_after _ _ _ _ _ _ H6) in A; [| emits_script].
  apply (emits_after _ _ _ _ _ _ H7) in A; [| emits_script].
  apply (emits_after _ _ _ _ _ _ H8) in A; [| emits_script].
  exact A.
Qed.

End Whole.

(** ** The access configurator *)

Section Access.
Context {E : Env}.
Variables (owner : value) (dao daoFactory : handle).
Variables (extensions adapters : obj deployed) (o : options).

Lemma bind_bind {A B C} (m : M A) (f : A -> M B) (g : B -> M C) s :
  bind (bind m f) g s = bind m (fun a => bind (f a) g) s.
Proof. unfold bind. destruct (m s) as [[a | e] s1]; reflexivity. Qed.

Lemma access_entries :
  configureAdaptersWithDAOAccess owner dao daoFactory extensions adapters =
  invoke (AddAdapters daoFactory (address dao)
            (daoAccessEntries extensions adapters) owner).
Proof.
  unfold configureAdaptersWithDAOAccess, daoAccessEntries. do 4 f_equal.
  apply filter_ext. intros x. unfold keys. rewrite length_map.
  now destruct (acl_extensions (acls (d_configs x))).
Qed.

(** X13: [configureDao] begins with the DAO-level access grant, one
    batched [addAdapters] call that it issues whatever the entries, even
    none, and issues no other [addAdapters] call.  The batch lists the
    enabled, non-skipped adapters that declare DAO flags, then the enabled,
    non-skipped extensions that declare access to some extension. *)
Theorem configureDao_grants_first (s : state) (r : res unit) (s' : state) :
  configureDao owner dao daoFactory extensions adapters o s = (r, s') ->
  (exists t,
     trace s' =
     (trace s ++
      callOf (AddAdapters daoFactory (address dao)
                (daoAccessEntries extensions adapters) owner) :: t)%list /\
     Forall (fun c => is_addAdapters c = false) t) /\
  (forall e,
     In e (daoAccessEntries extensions adapters) <->
     (exists a, In a (values adapters) /\ enabled (d_configs a) = true /\
                skipAutoDeploy (d_configs a) = false /\
                acl_dao (acls (d_configs a)) <> None /\ e = entryOf a) \/
     (exists x, In x (values extensions) /\ enabled (d_configs x) = true /\
                skipAutoDeploy (d_configs x) = false /\
                acl_extensions (acls (d_configs x)) <> [] /\ e = entryOf x)).
Proof.
  intros H. split.
  - unfold configureDao, configureAdapters in H.
    rewrite bind_bind, access_entries in H. unfold bind at 1 in H.
    destruct (invoke (AddAdapters _ _ _ _) s) as [[u | e] s1] eqn:Ha.
    + pose proof (invoke_trace _ _ _ _ Ha) as Ht.
      assert (Hrest : exists t0, trace s1 = (trace s1 ++ t0)%list /\
                                 Forall (fun c => is_addAdapters c = false) t0)
        by apply emits_start.
      apply (emits_after _ _ _ _ _ _ H) in Hrest; [| emits_script].
      destruct Hrest as (t & Hs' & HP). exists t. split; [| assumption].
      rewrite Hs', Ht, <- app_assoc. reflexivity.
    + inversion H; subst. exists []. split; [| constructor].
      apply (invoke_trace _ _ _ _ Ha).
  - intros e. unfold daoAccessEntries. rewrite in_app_iff, !in_map_iff.
    unfold isEnabled, notSkipped.
    split.
    + intros [(x & <- & Hx) | (x & <- & Hx)]; [left | right]; exists x;
        rewrite !filter_In, ?negb_true_iff in Hx;
        destruct Hx as [[[Hin He] Hs] Hd]; repeat split; try assumption.
      * now destruct (acl_dao (acls (d_configs x))).
      * now destruct (acl_extensions (acls (d_configs x))).
    + intros [(x & Hin & He & Hs & Hd & ->) | (x & Hin & He & Hs & Hd & ->)];
        [left | right]; exists x; (split; [reflexivity |]);
        rewrite !filter_In, ?negb_true_iff; repeat split; try assumption.
      * now destruct (acl_dao (acls (d_configs x))).
      * now destruct (acl_extensions (acls (d_configs x))).
Qed.





End Access.

Section Grants.
Context {E : Env}.
Variables (owner : value) (dao daoFactory : handle).
Variables (extensions adapters : obj deployed) (o : options).

(** X15: every [configureExtension] call that [configureAdapters] issues
    grants, in one batch, access to an enabled, non-skipped extension for a
    non-empty list of enabled, non-skipped adapters, each of which declares
    access to this extension; an extension to which no such adapter declares
    access gets no call. *)
Theorem configureAdapters_grants :
  emits (adapterGrant owner dao daoFactory extensions adapters)
    (configureAdapters owner dao daoFactory extensions adapters o).
Proof.
  unfold configureAdapters.
  apply emits_bind; [emits_script | intros _].
  apply emits_bind; [emits_script | intros _].
  apply emits_fold; [| apply emits_ret].
  intros target Hin p Hp. unfold adaptersAccessStep.
  apply emits_catch; [| intros e; emits_script].
  apply emits_bind; [assumption | intros _].
  unfold configureExtensionAccess.
  destruct (0 <? length _)%nat eqn:Hlen; [| apply emits_ret].
  apply emits_invoke. simpl. eexists target, _.
  rewrite !filter_In in Hin. destruct Hin as [[Hin He] Hs].
  repeat (split; [assumption |]). split; [| split].
  - intros Hnil. rewrite Hnil in Hlen. discriminate.
  - intros x Hx. rewrite !filter_In in Hx. tauto.
  - reflexivity.
Qed.

End Grants.

(** ** The off-chain voting installer *)

Ltac step_bind H Hi :=
  unfold bind at 1 in H;
  match type of H with
  | context [match ?m ?s with _ => _ end] =>
      destruct (m s) as [[? | ?] ?] eqn:Hi
  end.

Section Voting.
Context {E : Env}.
Variables (o : options) (dao daoFactory : handle) (extensions : obj deployed).

(** X14: an off-chain voting installation that succeeds has issued eight
    calls in this order: the query for the current voting adapter, the
    deployments of the snapshot proposal contract, of the hash contract with
    the address of the former, of the bad-reporter adapter, and of the voting
    contract with the addresses of all four and the admin, the update of the
    DAO's adapter, the grant on the bank extension, and the configuration
    with the voting period, the grace period and 10.  It returns the snapshot
    contract, the bad-reporter adapter and the voting contract, and the
    extensions map holds a "bankExt". *)
Theorem configureOffchainVoting_protocol (s : state) (vh : votingHelpers)
    (s' : state) :
  truthy (opt_get o "offchainVoting") = true ->
  configureOffchainVoting o dao daoFactory extensions s = (Ok vh, s') ->
  exists bankExt current snapshot hashContract reporter voting,
    obj_get "bankExt" extensions = Some bankExt /\
    vh = {| snapshotProposalContract := Some snapshot;
            handleBadReporterAdapter := Some reporter;
            offchainVoting := Some voting |} /\
    trace s' =
    (trace s ++
     votingCalls o dao daoFactory bankExt current snapshot hashContract
       reporter voting)%list.
Proof.
  unfold configureOffchainVoting. intros -> H. simpl in H.
  apply bind_Ok in H as (cur & s1 & H1 & H).
  apply bind_Ok in H as (sp & s2 & H2 & H).
  apply bind_Ok in H as (hc & s3 & H3 & H).
  apply bind_Ok in H as (hb & s4 & H4 & H).
  apply bind_Ok in H as (ov & s5 & H5 & H).
  apply bind_Ok in H as (v & s6 & Hv & H).
  apply bind_Ok in H as (u & s7 & H6 & H).
  destruct (obj_get "bankExt" extensions) as [bankExt |]; [| discriminate].
  apply bind_Ok in H as (u1 & s8 & H7 & H).
  apply bind_Ok in H as (u2 & s9 & H8 & H).
  inversion H; subst.
  apply embedded_Ok in Hv as (-> & _ & _).
  exists bankExt, cur, sp, hc, hb, v. split; [reflexivity |].
  split; [reflexivity |].
  apply invoke_trace in H1, H2, H3, H4, H5, H6, H7, H8. unfold votingCalls.
  rewrite H8, H7, H6, H5, H4, H3, H2, H1, <- !app_assoc. reflexivity.
Qed.

(** X17: without a "bankExt" in the extensions map the installation never
    succeeds, and it does not find out before it has deployed: unless the
    chain client rejects a call, it fails with a [TypeError] after the four
    contracts have been deployed. *)
Theorem configureOffchainVoting_needs_bank (s : state) (r : res votingHelpers)
    (s' : state) :
  truthy (opt_get o "offchainVoting") = true ->
  obj_get "bankExt" extensions = None ->
  configureOffchainVoting o dao daoFactory extensions s = (r, s') ->
  exists e,
    r = Err e /\
    (e = Rejected \/
     e = TypeError /\
     exists t, trace s' = (trace s ++ t)%list /\
               length (List.filter is_deploy t) = 4%nat).
Proof.
  unfold configureOffchainVoting. intros -> Hbank H. simpl in H.
  rewrite Hbank in H.
  step_bind H H1.
  2:{ inversion H; subst. eexists. split; [reflexivity | left].
      now apply invoke_Err in H1. }
  step_bind H H2.
  2:{ inversion H; subst. eexists. split; [reflexivity | left].
      now apply invoke_Err in H2. }
  step_bind H H3.
  2:{ inversion H; subst. eexists. split; [reflexivity | left].
      now apply invoke_Err in H3. }
  step_bind H H4.
  2:{ inversion H; subst. eexists. split; [reflexivity | left].
      now apply invoke_Err in H4. }
  step_bind H H5.
  2:{ inversion H; subst. eexists. split; [reflexivity | left].
      now apply invoke_Err in H5. }
  apply invoke_trace in H1, H2, H3, H4, H5.
  step_bind H Hv.
  2:{ inversion H; subst. unfold embedded in Hv.
      destruct (configs _); inversion Hv; subst.
      exists TypeError. split; [reflexivity | right]. split; [reflexivity |].
      eexists. split.
      - rewrite H5, H4, H3, H2, H1, <- !app_assoc. reflexivity.
      - reflexivity. }
  apply embedded_Ok in Hv as (-> & _ & _).
  step_bind H H6.
  2:{ inversion H; subst. eexists. split; [reflexivity | left].
      now apply invoke_Err in H6. }
  apply invoke_trace in H6. inversion H; subst.
  exists TypeError. split; [reflexivity | right]. split; [reflexivity |].
  eexists. split.
  - rewrite H6, H5, H4, H3, H2, H1, <- !app_assoc. reflexivity.
  - reflexivity.
Qed.

End Voting.

(** ** Further runs on the table-driven chain clients *)

Lemma createFactories_link_witness :
  (exists pre post e s',
     autoDeployed Factory orphanOptions = (pre ++ orphanFactory :: post)%list /\
     @createFactories (tableEnv [orphanFactory]) orphanOptions (fresh _)
     = (Err e, s') /\
     (@factoriesChain (tableEnv [orphanFactory]) orphanOptions pre (ret [])
        (fresh _) = (Err e, s') \/
      exists factories,
        @factoriesChain (tableEnv [orphanFactory]) orphanOptions pre (ret [])
          (fresh _) = (Ok factories, s') /\
        (e = missingFactory orphanFactory \/
         e = missingExtensionConfig orphanFactory))) /\
  (exists factories s',
     @createFactories (tableEnv smallTable) smallOptions (fresh smallTable)
     = (Ok factories, s') /\
     exists t,
       trace s' =
       (callOf (DeployFunction (art "BankFactory")
                  (Some [art "BankExtension"]) VUndefined) :: t)%list).
Proof.
  split.
  - apply (proj1 (@createFactories_link (tableEnv [orphanFactory])
                    orphanOptions) orphanFactory (fresh _)).
    + simpl. auto.
    + reflexivity.
    + reflexivity.
    + reflexivity.
    + reflexivity.
  - do 2 eexists. split; [vm_compute; reflexivity |].
    apply (proj1 (proj2 (@createFactories_link (tableEnv smallTable)
                           smallOptions))
             (d_configs bankFactory) (d_configs bankExtension) [] []
             (fresh smallTable) [] (fresh smallTable)
             (Ok [("bankExtFactory",
                   Deployed (VNum 1) (d_configs bankFactory))])).
    + reflexivity.
    + reflexivity.
    + reflexivity.
    + reflexivity.
    + reflexivity.
    + vm_compute. reflexivity.
Defined.

Lemma createFactories_in_table_order_witness :
  exists factories s',
    @createFactories (tableEnv smallTable) smallOptions (fresh smallTable)
    = (Ok factories, s') /\
    length (trace s') = 1%nat.
Proof.
  do 2 eexists. split; [vm_compute; reflexivity |].
  destruct (@createFactories_in_table_order (tableEnv smallTable) smallOptions
              (fresh smallTable) _ _ ltac:(vm_compute; reflexivity))
    as [Ht Hl].
  rewrite Ht, length_app, Hl. reflexivity.
Defined.

Lemma deployment_phases_in_table_order_witness :
  exists adapters s',
    @createAdapters (tableEnv smallTable) smallOptions (fresh smallTable)
    = (Ok adapters, s') /\
    trace s' =
    (trace (fresh smallTable) ++
     map (deployCall smallOptions) (autoDeployed Adapter smallOptions))%list.
Proof.
  do 2 eexists. split; [vm_compute; reflexivity |].
  eapply (proj1 (@deployment_phases_in_table_order (tableEnv smallTable)
                   smallOptions (fresh smallTable) _ _)).
  vm_compute. reflexivity.
Defined.

Lemma createAdapters_fail_fast_witness :
  exists e s',
    @createAdapters (tableEnv brokenTable) brokenOptions (fresh brokenTable)
    = (Err e, s') /\
    e = notFound unregistered.
Proof.
  do 2 eexists. split.
  - eapply (@createAdapters_fail_fast (tableEnv brokenTable) brokenOptions
              [descriptor "voting" "VotingContract" "voting" Adapter
                 true false None None]
              [descriptor "financing" "FinancingContract" "financing" Adapter
                 true false None None]
              unregistered (fresh brokenTable)).
    + reflexivity.
    + vm_compute. reflexivity.
    + vm_compute. reflexivity.
  - reflexivity.
Defined.

Lemma createExtension_checks_first_witness :
  @createExtension (tableEnv [orphanFactory]) theDao orphan orphanOptions
    (fresh [orphanFactory])
  = (Err (missingLink orphanFactory), fresh [orphanFactory]).
Proof.
  apply (proj1 (@createExtension_checks_first (tableEnv [orphanFactory])
                  theDao orphan orphanOptions (fresh [orphanFactory]))).
  reflexivity.
Defined.

Lemma createExtension_late_lookup_witness :
  exists r s' e,
    @createExtension (tableEnv smallTable) theDao bankFactory
      (bag smallTable None [("BankFactory", art "BankFactory")]) (fresh smallTable)
    = (r, s') /\
    r = Err e /\ length (trace s') = 2%nat.
Proof.
  do 2 eexists.
  destruct (@createExtension_late_lookup (tableEnv smallTable) theDao
              bankFactory (bag smallTable None [("BankFactory", art "BankFactory")])
              (descriptor "bank" "BankExtension" "bankExt" Extension
                 true false None None)
              (fresh smallTable) _ _
              ltac:(reflexivity) ltac:(reflexivity)
              ltac:(vm_compute; reflexivity))
    as (e & He & _).
  exists e. split; [reflexivity |]. split; [exact He | reflexivity].
Defined.

Lemma createExtension_protocol_witness :
  exists d s',
    @createExtension (tableEnv smallTable) theDao bankFactory smallOptions
      (fresh smallTable) = (Ok d, s') /\
    length (trace s') = 4%nat.
Proof.
  do 2 eexists. split; [vm_compute; reflexivity |].
  destruct (@createExtension_protocol (tableEnv smallTable) theDao bankFactory
              smallOptions (fresh smallTable) _ _
              ltac:(vm_compute; reflexivity))
    as (ec & a & addr & inst & s1 & s2 & s3 & _ & _ & _ & _ & _ & _ & _ & _
        & Ht).
  rewrite Ht. reflexivity.
Defined.

Lemma createExtensions_per_factory_witness :
  exists extensions s' t,
    @createExtensions (tableEnv smallTable) theDao
      [("bankExtFactory", bankFactory)] smallOptions (fresh smallTable)
    = (Ok extensions, s') /\
    trace s' = t /\ length t = 4%nat.
Proof.
  do 2 eexists.
  destruct (@createExtensions_per_factory (tableEnv smallTable) theDao
              [("bankExtFactory", bankFactory)] smallOptions
              (fresh smallTable) _ _ ltac:(vm_compute; reflexivity))
    as (t & Ht & Hl & _).
  exists t. split; [vm_compute; reflexivity |]. split; assumption.
Defined.


Lemma deployDao_starts_with_clone_witness :
  exists r s' daoFactory,
    @deployDao (tableEnv smallTable) smallOptions (fresh smallTable)
    = (Ok r, s') /\
    obj_get "daoFactory" (r_factories r) = Some daoFactory.
Proof.
  do 2 eexists.
  destruct (@deployDao_starts_with_clone (tableEnv smallTable) smallOptions
              (fresh smallTable) _ _ ltac:(vm_compute; reflexivity))
    as (registry & daoFactory & addr & s0 & rest & _ & _ & Hget & _).
  exists daoFactory. split; [vm_compute; reflexivity | exact Hget].
Defined.

Lemma deployDao_finalizes_last_witness :
  exists r s' t,
    @deployDao (tableEnv smallTable) finalOptions (fresh smallTable)
    = (Ok r, s') /\
    trace s' = (t ++ [callOf (FinalizeDao (r_dao r) (VStr "0xowner"))])%list.
Proof.
  do 2 eexists.
  destruct (@deployDao_finalizes_last (tableEnv smallTable) finalOptions
              (fresh smallTable) _ _ ltac:(vm_compute; reflexivity))
    as (t & _ & Ht).
  exists t. split; [vm_compute; reflexivity | exact Ht].
Defined.

Lemma deployDao_on_cloned_dao_witness :
  exists r s' t,
    @deployDao (tableEnv smallTable) smallOptions (fresh smallTable)
    = (Ok r, s') /\
    trace s' = t /\ Forall (onDao (r_dao r)) t.
Proof.
  do 2 eexists.
  destruct (@deployDao_on_cloned_dao (tableEnv smallTable) smallOptions
              (fresh smallTable) _ _ ltac:(vm_compute; reflexivity))
    as (t & Ht & HP).
  exists t. split; [vm_compute; reflexivity |]. split; assumption.
Defined.

Lemma configureDao_grants_first_witness :
  exists r s' t,
    @configureDao (tableEnv smallTable) (VStr "0xowner") theDao theDaoFactory
      [("bankExt", bankExtension)] [("voting", votingAdapter)] smallOptions
      (fresh smallTable) = (r, s') /\
    trace s' =
    callOf (AddAdapters theDaoFactory (VNum 3)
              (daoAccessEntries [("bankExt", bankExtension)]
                 [("voting", votingAdapter)]) (VStr "0xowner")) :: t.
Proof.
  do 2 eexists.
  destruct (proj1 (@configureDao_grants_first (tableEnv smallTable)
                     (VStr "0xowner") theDao theDaoFactory
                     [("bankExt", bankExtension)] [("voting", votingAdapter)]
                     smallOptions (fresh smallTable) _ _ eq_refl))
    as (t & Ht & _).
  exists t. split; [reflexivity | exact Ht].
Defined.



Lemma configureAdapters_grants_witness :
  exists r s' t,
    @configureAdapters (tableEnv smallTable) (VStr "0xowner") theDao
      theDaoFactory [("bankExt", bankExtension)] [("voting", votingAdapter)]
      smallOptions (fresh smallTable) = (r, s') /\
    trace s' = t /\
    Forall (adapterGrant (VStr "0xowner") theDao theDaoFactory
              [("bankExt", bankExtension)] [("voting", votingAdapter)]) t.
Proof.
  do 2 eexists.
  destruct (@configureAdapters_grants (tableEnv smallTable) (VStr "0xowner")
              theDao theDaoFactory [("bankExt", bankExtension)]
              [("voting", votingAdapter)] smallOptions (fresh smallTable)
              _ _ eq_refl)
    as (t & Ht & HP).
  exists t. split; [reflexivity |]. split; assumption.
Defined.

Lemma configureOffchainVoting_protocol_witness :
  exists vh s',
    @configureOffchainVoting (tableEnv (votingTable "voting"))
      (votingOptions "voting") theDao theDaoFactory
      [("bankExt", bankExtension)] (fresh (votingTable "voting"))
    = (Ok vh, s') /\
    length (trace s') = 8%nat.
Proof.
  do 2 eexists. split; [vm_compute; reflexivity |].
  destruct (@configureOffchainVoting_protocol (tableEnv (votingTable "voting"))
              (votingOptions "voting") theDao theDaoFactory
              [("bankExt", bankExtension)] (fresh (votingTable "voting"))
              _ _ ltac:(vm_compute; reflexivity)
              ltac:(vm_compute; reflexivity))
    as (bankExt & cur & sp & hc & hb & v & _ & _ & Ht).
  rewrite Ht. reflexivity.
Defined.

Lemma configureOffchainVoting_needs_bank_witness :
  exists r s' e,
    @configureOffchainVoting (tableEnv (votingTable "voting"))
      (votingOptions "voting") theDao theDaoFactory []
      (fresh (votingTable "voting")) = (r, s') /\
    r = Err e.
Proof.
  do 2 eexists.
  destruct (@configureOffchainVoting_needs_bank
              (tableEnv (votingTable "voting")) (votingOptions "voting")
              theDao theDaoFactory [] (fresh (votingTable "voting")) _ _
              ltac:(vm_compute; reflexivity) eq_refl eq_refl)
    as (e & He & _).
  exists e. split; [reflexivity | exact He].
Defined.
